(** * Encrypted-storage envelope of FinSight-AI ([src/storage])

    A shallow embedding of [src/storage/secure_storage.py] and
    [src/storage/exceptions.py], together with the parts of the Python
    runtime the module calls (UTF-8 codec, [base64], [json], exceptions,
    [os.environ], files, [secrets]).  The two primitives of the
    [cryptography] package (PBKDF2-HMAC and AES-GCM) are an interface
    ([Cryptography]); the laws the proofs need about them are section
    hypotheses, and [Toy] is an instance that satisfies them. *)

From Stdlib Require Import ZArith NArith Lia List String Ascii.
From Stdlib Require DecimalFacts DecimalPos.
From Stdlib.Strings Require Import Byte.
From stdpp Require Import gmap.
Import ListNotations.

Local Open Scope N_scope.

Local Set Warnings "-register-all".

(** Linear arithmetic with division and remainder by constants on [N]. *)
Ltac nlia := zify; Z.to_euclidean_division_equations; lia.

(** ** Python data *)

(** A [str] is a sequence of Unicode code points, a [bytes] object a
    sequence of octets. *)
Definition pystr := list N.
Definition bytes := list byte.

(** The [str] with the characters of an ASCII literal. *)
Definition lit (s : string) : pystr := map N_of_ascii (list_ascii_of_string s).

Definition byte_of_N (n : N) : byte :=
  match Byte.of_N n with Some b => b | None => x00 end.

Global Instance byte_eq_dec : EqDecision byte.
Proof.
  intros a b. destruct (Byte.eqb a b) eqn:E.
  - left. now apply Byte.byte_dec_bl.
  - right. now apply Byte.eqb_false.
Defined.

(** The values that reach the storage module.  A float is carried as the
    text of its JSON number token; its conversion to binary64 is not
    interpreted. *)
Inductive pyvalue :=
| PyNone
| PyBool (b : bool)
| PyInt (z : Z)
| PyFloat (tok : pystr)
| PyStr (s : pystr)
| PyBytes (b : bytes)
| PyList (l : list pyvalue)
| PyDict (d : list (pyvalue * pyvalue)).


(** ** Exceptions *)

(** The exception classes that occur: the builtins and library classes the
    module can meet, and the five classes of [exceptions.py]. *)
Inductive exc_class :=
| Exception | NameError | LookupError | KeyError | TypeError | ValueError
| OverflowError | UnicodeError | UnicodeEncodeError | UnicodeDecodeError
| JSONDecodeError | binascii_Error | OSError | FileNotFoundError | InvalidTag
| StorageError | EncryptionError | DecryptionError
| StorageInitializationError | StorageIOError.

Global Instance exc_class_eq_dec : EqDecision exc_class.
Proof. solve_decision. Defined.

(** The direct base class; [None] for [Exception], whose base
    [BaseException] is not needed.  The last five lines are the class
    statements of [exceptions.py]. *)
Definition base_class (c : exc_class) : option exc_class :=
  match c with
  | Exception => None
  | NameError | LookupError | TypeError | ValueError | OSError => Some Exception
  | OverflowError => Some Exception      (* through ArithmeticError *)
  | KeyError => Some LookupError
  | UnicodeError | JSONDecodeError | binascii_Error => Some ValueError
  | UnicodeEncodeError | UnicodeDecodeError => Some UnicodeError
  | FileNotFoundError => Some OSError
  | InvalidTag => Some Exception
  | StorageError => Some Exception
  | EncryptionError => Some StorageError
  | DecryptionError => Some StorageError
  | StorageInitializationError => Some StorageError
  | StorageIOError => Some StorageError
  end.

(** [issubclass c d]; the hierarchy above has depth 4. *)
Fixpoint issubclass_fuel (n : nat) (c d : exc_class) : bool :=
  if decide (c = d) then true
  else match n, base_class c with
       | S n', Some b => issubclass_fuel n' b d
       | _, _ => false
       end.
Definition issubclass := issubclass_fuel 4.


(** An exception object: its class, [str(e)], and [__context__], the
    exception that was being handled when it was raised.  The messages of
    the module are literal; those of the runtime and of the libraries are
    abbreviated. *)
Inductive exn := Exn (cls : exc_class) (msg : pystr) (context : option exn).

Definition exc_cls (e : exn) : exc_class := let 'Exn c _ _ := e in c.
Definition exc_str (e : exn) : pystr := let 'Exn _ m _ := e in m.
Definition exc_context (e : exn) : option exn := let 'Exn _ _ x := e in x.

(** [isinstance(e, c)] *)
Definition isinstance (e : exn) (c : exc_class) : bool := issubclass (exc_cls e) c.


(** The outcome of a call: a value or a raised exception. *)
Inductive result (A : Type) :=
| Ok (a : A)
| Raise (e : exn).
Arguments Ok {A} a.
Arguments Raise {A} e.

Global Instance result_ret : MRet result := @Ok.
Global Instance result_bind : MBind result := fun A B f r =>
  match r with Ok a => f a | Raise e => Raise e end.

Global Instance result_fmap : FMap result := fun A B f r =>
  match r with Ok a => Ok (f a) | Raise e => Raise e end.

Definition is_ok {A} (r : result A) : bool :=
  match r with Ok _ => true | Raise _ => false end.

(** ** The UTF-8 codec: [str.encode('utf-8')] and [bytes.decode('utf-8')] *)

Definition is_surrogate (c : N) : bool := (55296 <=? c) && (c <? 57344).

(** One code point to its UTF-8 octets; [None] for a surrogate (and for a
    number above U+10FFFF, which no [str] holds). *)
Definition utf8_encode_char (c : N) : option (list N) :=
  if c <? 128 then Some [c]
  else if c <? 2048 then Some [192 + c / 64; 128 + c mod 64]
  else if c <? 65536 then
    if is_surrogate c then None
    else Some [224 + c / 4096; 128 + (c / 64) mod 64; 128 + c mod 64]
  else if c <? 1114112 then
    Some [240 + c / 262144; 128 + (c / 4096) mod 64;
          128 + (c / 64) mod 64; 128 + c mod 64]
  else None.

Fixpoint utf8_encode (s : pystr) : option (list N) :=
  match s with
  | [] => Some []
  | c :: s' =>
      match utf8_encode_char c, utf8_encode s' with
      | Some bs, Some r => Some (bs ++ r)
      | _, _ => None
      end
  end.

Definition is_cont (b : N) : bool := (128 <=? b) && (b <? 192).

(** The strict decoder: no overlong forms, no surrogates, nothing above
    U+10FFFF, no truncated sequence. *)
Fixpoint utf8_decode (bs : list N) : option pystr :=
  match bs with
  | [] => Some []
  | b0 :: r0 =>
      if b0 <? 128 then cons b0 <$> utf8_decode r0
      else if b0 <? 194 then None
      else if b0 <? 224 then
        match r0 with
        | b1 :: r1 =>
            if is_cont b1
            then cons ((b0 - 192) * 64 + (b1 - 128)) <$> utf8_decode r1
            else None
        | _ => None
        end
      else if b0 <? 240 then
        match r0 with
        | b1 :: b2 :: r2 =>
            let c := (b0 - 224) * 4096 + (b1 - 128) * 64 + (b2 - 128) in
            if is_cont b1 && is_cont b2 && (2048 <=? c) && negb (is_surrogate c)
            then cons c <$> utf8_decode r2
            else None
        | _ => None
        end
      else if b0 <? 245 then
        match r0 with
        | b1 :: b2 :: b3 :: r3 =>
            let c := (b0 - 240) * 262144 + (b1 - 128) * 4096
                     + (b2 - 128) * 64 + (b3 - 128) in
            if is_cont b1 && is_cont b2 && is_cont b3
               && (65536 <=? c) && (c <? 1114112)
            then cons c <$> utf8_decode r3
            else None
        | _ => None
        end
      else None
  end.

(** [s.encode('utf-8')] *)
Definition str_encode (s : pystr) : result bytes :=
  match utf8_encode s with
  | Some bs => Ok (map byte_of_N bs)
  | None =>
      Raise (Exn UnicodeEncodeError
               (lit "'utf-8' codec can't encode character: surrogates not allowed")
               None)
  end.

(** [b.decode('utf-8')] *)
Definition bytes_decode (b : bytes) : result pystr :=
  match utf8_decode (map Byte.to_N b) with
  | Some s => Ok s
  | None =>
      Raise (Exn UnicodeDecodeError
               (lit "'utf-8' codec can't decode byte: invalid utf-8") None)
  end.

(** ** [base64] *)

Definition table_b2a_base64 : list byte :=
  list_byte_of_string
    "ABCDEFGHIJKLMNOPQRSTUVWXYZabcdefghijklmnopqrstuvwxyz0123456789+/".

Definition BASE64_PAD : byte := "=".

(** The character of a 6-bit value. *)
Definition b2a (v : N) : byte := nth (N.to_nat v) table_b2a_base64 x00.

Fixpoint index_of (ch : byte) (l : list byte) (i : N) : option N :=
  match l with
  | [] => None
  | x :: l' => if Byte.eqb ch x then Some i else index_of ch l' (i + 1)
  end.

(** The 6-bit value of a character of the alphabet. *)
Definition a2b (ch : byte) : option N := index_of ch table_b2a_base64 0.

(** [binascii.b2a_base64(data, newline=False)]: three octets to four
    characters, the tail padded with [=]. *)
Fixpoint b2a_base64 (data : list N) : bytes :=
  match data with
  | [] => []
  | [a] =>
      [b2a (N.shiftr a 2); b2a (N.shiftl (N.land a 3) 4); BASE64_PAD; BASE64_PAD]
  | [a; b] =>
      [b2a (N.shiftr a 2);
       b2a (N.lor (N.shiftl (N.land a 3) 4) (N.shiftr b 4));
       b2a (N.shiftl (N.land b 15) 2); BASE64_PAD]
  | a :: b :: c :: rest =>
      b2a (N.shiftr a 2)
      :: b2a (N.lor (N.shiftl (N.land a 3) 4) (N.shiftr b 4))
      :: b2a (N.lor (N.shiftl (N.land b 15) 2) (N.shiftr c 6))
      :: b2a (N.land c 63)
      :: b2a_base64 rest
  end.

(** [base64.b64encode(s)] *)
Definition b64encode (s : bytes) : bytes := b2a_base64 (map Byte.to_N s).

Definition binascii_error (m : string) : exn := Exn binascii_Error (lit m) None.

(** [binascii.a2b_base64(data)] in its default, non-strict mode: characters
    outside the alphabet are skipped, a pad that completes a quad ends the
    input, and a quad left open at the end is an error.  [quad_pos],
    [leftchar] and [pads] are the variables of the C loop. *)
Fixpoint a2b_base64_loop (data : bytes) (quad_pos : nat) (leftchar : N)
    (pads : nat) : result (list N) :=
  match data with
  | [] =>
      match quad_pos with
      | O => Ok []
      | 1%nat =>
          Raise (binascii_error
            "Invalid base64-encoded string: number of data characters cannot be 1 more than a multiple of 4")
      | _ => Raise (binascii_error "Incorrect padding")
      end
  | this_ch :: rest =>
      if Byte.eqb this_ch BASE64_PAD then
        if (2 <=? quad_pos)%nat then
          if (4 <=? quad_pos + S pads)%nat then Ok []
          else a2b_base64_loop rest quad_pos leftchar (S pads)
        else a2b_base64_loop rest quad_pos leftchar pads
      else
        match a2b this_ch with
        | None => a2b_base64_loop rest quad_pos leftchar pads
        | Some v =>
            match quad_pos with
            | O => a2b_base64_loop rest 1 v 0
            | 1%nat =>
                cons (N.lor (N.shiftl leftchar 2) (N.shiftr v 4))
                  <$> a2b_base64_loop rest 2 (N.shiftl (N.land v 15) 4) 0
            | 2%nat =>
                cons (N.lor leftchar (N.shiftr v 2))
                  <$> a2b_base64_loop rest 3 (N.shiftl (N.land v 3) 6) 0
            | _ =>
                cons (N.lor leftchar v) <$> a2b_base64_loop rest 0 0 0
            end
        end
  end.

Definition a2b_base64 (data : bytes) : result bytes :=
  map byte_of_N <$> a2b_base64_loop data 0 0 0.

(** [base64._bytes_from_decode_data]: an ASCII [str] or a [bytes] object. *)
Definition bytes_from_decode_data (s : pyvalue) : result bytes :=
  match s with
  | PyStr t =>
      if forallb (fun c => c <? 128) t then Ok (map byte_of_N t)
      else Raise (Exn ValueError
                    (lit "string argument should contain only ASCII characters")
                    None)
  | PyBytes b => Ok b
  | _ =>
      Raise (Exn TypeError
               (lit "argument should be a bytes-like object or ASCII string")
               None)
  end.

(** [base64.b64decode(s)] *)
Definition b64decode (s : pyvalue) : result bytes :=
  bytes_from_decode_data s ≫= a2b_base64.

(** ** [json] *)

(** Character codes. *)
Definition chr (a : ascii) : N := N_of_ascii a.
Definition QUOTE : N := 34.
Definition BACKSLASH : N := 92.

Definition is_digit (c : N) : bool := (48 <=? c) && (c <=? 57).

(** Decimal text of a natural number, through [Decimal.uint]. *)
Fixpoint uint_chars (u : Decimal.uint) : pystr :=
  match u with
  | Decimal.Nil => []
  | Decimal.D0 u => 48 :: uint_chars u | Decimal.D1 u => 49 :: uint_chars u
  | Decimal.D2 u => 50 :: uint_chars u | Decimal.D3 u => 51 :: uint_chars u
  | Decimal.D4 u => 52 :: uint_chars u | Decimal.D5 u => 53 :: uint_chars u
  | Decimal.D6 u => 54 :: uint_chars u | Decimal.D7 u => 55 :: uint_chars u
  | Decimal.D8 u => 56 :: uint_chars u | Decimal.D9 u => 57 :: uint_chars u
  end.

Fixpoint chars_uint (s : pystr) : Decimal.uint :=
  match s with
  | [] => Decimal.Nil
  | c :: r =>
      let u := chars_uint r in
      if c =? 48 then Decimal.D0 u else if c =? 49 then Decimal.D1 u
      else if c =? 50 then Decimal.D2 u else if c =? 51 then Decimal.D3 u
      else if c =? 52 then Decimal.D4 u else if c =? 53 then Decimal.D5 u
      else if c =? 54 then Decimal.D6 u else if c =? 55 then Decimal.D7 u
      else if c =? 56 then Decimal.D8 u else Decimal.D9 u
  end.

(** [repr] of an [int] *)
Definition int_repr (z : Z) : pystr :=
  match z with
  | Z0 => [48]
  | Zpos p => uint_chars (N.to_uint (Npos p))
  | Zneg p => chr "-" :: uint_chars (N.to_uint (Npos p))
  end.

Definition hexdigit (v : N) : N := if v <? 10 then 48 + v else 87 + v.

(** The escape [\uXXXX], four lower-case hexadecimal digits. *)
Definition u_escape (n : N) : pystr :=
  [BACKSLASH; chr "u"; hexdigit (n / 4096); hexdigit ((n / 256) mod 16);
   hexdigit ((n / 16) mod 16); hexdigit (n mod 16)].

(** One character of a string under [ensure_ascii=True]. *)
Definition escape_char (c : N) : pystr :=
  if c =? QUOTE then [BACKSLASH; QUOTE]
  else if c =? BACKSLASH then [BACKSLASH; BACKSLASH]
  else if c =? 10 then [BACKSLASH; chr "n"]
  else if c =? 13 then [BACKSLASH; chr "r"]
  else if c =? 9 then [BACKSLASH; chr "t"]
  else if c =? 8 then [BACKSLASH; chr "b"]
  else if c =? 12 then [BACKSLASH; chr "f"]
  else if (32 <=? c) && (c <=? 126) then [c]
  else if c <? 65536 then u_escape c
  else
    let n := c - 65536 in
    u_escape (N.lor 55296 (N.land (N.shiftr n 10) 1023))
    ++ u_escape (N.lor 56320 (N.land n 1023)).

(** [json.encoder.encode_basestring_ascii] *)
Definition encode_basestring_ascii (s : pystr) : pystr :=
  QUOTE :: flat_map escape_char s ++ [QUOTE].

(** The text of a dict key: [str], [int], [float], [bool] and [None] keys are
    accepted, any other key is a [TypeError]. *)
Definition encode_key (k : pyvalue) : result pystr :=
  match k with
  | PyStr s => Ok (encode_basestring_ascii s)
  | PyFloat t => Ok (QUOTE :: t ++ [QUOTE])
  | PyBool true => Ok (QUOTE :: lit "true" ++ [QUOTE])
  | PyBool false => Ok (QUOTE :: lit "false" ++ [QUOTE])
  | PyNone => Ok (QUOTE :: lit "null" ++ [QUOTE])
  | PyInt z => Ok (QUOTE :: int_repr z ++ [QUOTE])
  | _ =>
      Raise (Exn TypeError
               (lit "keys must be str, int, float, bool or None") None)
  end.

(** [", ".join(items)] *)
Fixpoint join_comma (items : list pystr) : pystr :=
  match items with
  | [] => []
  | [x] => x
  | x :: rest => x ++ lit ", " ++ join_comma rest
  end.

(** [json.dumps(obj)] with the default options: ASCII output, separators
    [", "] and [": "], keys in insertion order. *)
Fixpoint json_dumps (obj : pyvalue) : result pystr :=
  match obj with
  | PyNone => Ok (lit "null")
  | PyBool true => Ok (lit "true")
  | PyBool false => Ok (lit "false")
  | PyInt z => Ok (int_repr z)
  | PyFloat t => Ok t
  | PyStr s => Ok (encode_basestring_ascii s)
  | PyBytes _ =>
      Raise (Exn TypeError
               (lit "Object of type bytes is not JSON serializable") None)
  | PyList l =>
      let items :=
        (fix items (l : list pyvalue) : result (list pystr) :=
           match l with
           | [] => Ok []
           | x :: l' =>
               match json_dumps x with
               | Ok t => cons t <$> items l'
               | Raise e => Raise e
               end
           end) l in
      (fun ts => chr "[" :: join_comma ts ++ [chr "]"]) <$> items
  | PyDict d =>
      let items :=
        (fix items (d : list (pyvalue * pyvalue)) : result (list pystr) :=
           match d with
           | [] => Ok []
           | (k, v) :: d' =>
               match encode_key k with
               | Ok tk =>
                   match json_dumps v with
                   | Ok tv => cons (tk ++ lit ": " ++ tv) <$> items d'
                   | Raise e => Raise e
                   end
               | Raise e => Raise e
               end
           end) d in
      (fun ts => chr "{" :: join_comma ts ++ [chr "}"]) <$> items
  end.

(** *** Decoding *)

Definition is_ws (c : N) : bool :=
  (c =? 32) || (c =? 9) || (c =? 10) || (c =? 13).

Fixpoint skip_ws (s : pystr) : pystr :=
  match s with
  | c :: r => if is_ws c then skip_ws r else s
  | [] => []
  end.

Definition hexval (c : N) : option N :=
  if (48 <=? c) && (c <=? 57) then Some (c - 48)
  else if (97 <=? c) && (c <=? 102) then Some (c - 87)
  else if (65 <=? c) && (c <=? 70) then Some (c - 55)
  else None.

Definition hex4 (h1 h2 h3 h4 : N) : option N :=
  match hexval h1, hexval h2, hexval h3, hexval h4 with
  | Some a, Some b, Some c, Some d => Some (a * 4096 + b * 256 + c * 16 + d)
  | _, _, _, _ => None
  end.

(** The character of a one-letter escape. *)
Definition unescape (c : N) : option N :=
  if c =? QUOTE then Some QUOTE
  else if c =? BACKSLASH then Some BACKSLASH
  else if c =? chr "/" then Some (chr "/")
  else if c =? chr "b" then Some 8
  else if c =? chr "f" then Some 12
  else if c =? chr "n" then Some 10
  else if c =? chr "r" then Some 13
  else if c =? chr "t" then Some 9
  else None.

Definition is_high_surrogate (c : N) : bool := (55296 <=? c) && (c <=? 56319).
Definition is_low_surrogate (c : N) : bool := (56320 <=? c) && (c <=? 57343).

(** [json.decoder.scanstring(s, end, strict=True)], from the character after
    the opening quote: the string and the text after its closing quote.  A
    high surrogate escape followed by a low surrogate escape is one
    character. *)
Fixpoint scanstring (s : pystr) : option (pystr * pystr) :=
  match s with
  | [] => None
  | c :: r =>
      if c =? QUOTE then Some ([], r)
      else if c =? BACKSLASH then
        match r with
        | [] => None
        | e :: r1 =>
            if e =? chr "u" then
              match r1 with
              | h1 :: h2 :: h3 :: h4 :: r2 =>
                  match hex4 h1 h2 h3 h4 with
                  | None => None
                  | Some uni =>
                      let single :=
                        match scanstring r2 with
                        | Some (t, rest) => Some (uni :: t, rest)
                        | None => None
                        end in
                      if is_high_surrogate uni then
                        match r2 with
                        | b :: u :: g1 :: g2 :: g3 :: g4 :: r3 =>
                            if (b =? BACKSLASH) && (u =? chr "u") then
                              match hex4 g1 g2 g3 g4 with
                              | None => None
                              | Some uni2 =>
                                  if is_low_surrogate uni2 then
                                    match scanstring r3 with
                                    | Some (t, rest) =>
                                        Some (65536 + (uni - 55296) * 1024
                                              + (uni2 - 56320) :: t, rest)
                                    | None => None
                                    end
                                  else single
                              end
                            else single
                        | _ => single
                        end
                      else single
                  end
              | _ => None
              end
            else
              match unescape e, scanstring r1 with
              | Some x, Some (t, rest) => Some (x :: t, rest)
              | _, _ => None
              end
        end
      else if c <? 32 then None
      else
        match scanstring r with
        | Some (t, rest) => Some (c :: t, rest)
        | None => None
        end
  end.

(** The longest prefix of digits, and what follows it. *)
Fixpoint span_digits (s : pystr) : pystr * pystr :=
  match s with
  | c :: r =>
      if is_digit c then let '(ds, rest) := span_digits r in (c :: ds, rest)
      else ([], s)
  | [] => ([], [])
  end.

(** The parts of a number: each returns the text it read and what follows.
    An optional minus sign. *)
Definition number_sign (s : pystr) : pystr * pystr :=
  match s with
  | c :: r => if c =? chr "-" then ([c], r) else ([], s)
  | [] => ([], s)
  end.

(** [0], or a digit from 1 to 9 and any digits. *)
Definition number_integer (s : pystr) : option (pystr * pystr) :=
  match s with
  | c :: r =>
      if (49 <=? c) && (c <=? 57) then
        let '(ds, rest) := span_digits r in Some (c :: ds, rest)
      else if c =? 48 then Some ([c], r)
      else None
  | [] => None
  end.

(** A point and one digit or more, if they are there. *)
Definition number_fraction (s : pystr) : pystr * pystr :=
  match s with
  | p :: d :: r =>
      if (p =? chr ".") && is_digit d then
        let '(ds, rest) := span_digits r in (p :: d :: ds, rest)
      else ([], s)
  | _ => ([], s)
  end.

(** [e] or [E], an optional sign and one digit or more, if they are there. *)
Definition number_exponent (s : pystr) : pystr * pystr :=
  match s with
  | e :: r =>
      if (e =? chr "e") || (e =? chr "E") then
        let '(sign, r1) :=
          match r with
          | g :: r' =>
              if (g =? chr "+") || (g =? chr "-") then ([g], r') else ([], r)
          | [] => ([], r)
          end in
        let '(ds, rest) := span_digits r1 in
        match ds with
        | [] => ([], s)
        | _ => (e :: sign ++ ds, rest)
        end
      else ([], s)
  | [] => ([], s)
  end.

(** [scanner._match_number]: the value is an [int] when there is neither
    fraction nor exponent, else a [float]. *)
Definition match_number (s : pystr) : option (pyvalue * pystr) :=
  let '(sign, s1) := number_sign s in
  match number_integer s1 with
  | None => None
  | Some (int_digits, s2) =>
      let '(frac, s3) := number_fraction s2 in
      let '(exp, s4) := number_exponent s3 in
      match frac, exp with
      | [], [] =>
          let n := Z.of_N (N.of_uint (chars_uint int_digits)) in
          Some (PyInt (match sign with [] => n | _ => (- n)%Z end), s4)
      | _, _ => Some (PyFloat (sign ++ int_digits ++ frac ++ exp), s4)
      end
  end.

(** [p] is a prefix of [s]: what follows it. *)
Fixpoint strip_prefix (p s : pystr) : option pystr :=
  match p, s with
  | [], _ => Some s
  | a :: p', b :: s' => if a =? b then strip_prefix p' s' else None
  | _ :: _, [] => None
  end.

(** [d[key] = v] on a dict with [str] keys: an existing key keeps its
    place. *)
Fixpoint dict_setitem (key : pystr) (v : pyvalue) (d : list (pyvalue * pyvalue))
    : list (pyvalue * pyvalue) :=
  match d with
  | [] => [(PyStr key, v)]
  | (PyStr k, x) :: d' =>
      if decide (k = key) then (PyStr k, v) :: d'
      else (PyStr k, x) :: dict_setitem key v d'
  | kx :: d' => kx :: dict_setitem key v d'
  end.

Inductive scan_mode :=
| Value
| ArrayItems (acc : list pyvalue)
| ObjectItems (acc : list (pyvalue * pyvalue)).

Inductive scan_outcome :=
| Parsed (v : pyvalue) (rest : pystr)
| Invalid
| OutOfFuel.

(** [scanner.scan_once] with the loops of [_parse_array] and [_parse_object]:
    in mode [Value] one JSON term is read; in mode [ArrayItems acc] the text
    is at the start of an element of an array whose earlier elements are
    [acc]; in mode [ObjectItems acc] it is at the start of a key. *)
Fixpoint scan (fuel : nat) (m : scan_mode) (s : pystr) : scan_outcome :=
  match fuel with
  | O => OutOfFuel
  | S fuel =>
      match m with
      | Value =>
          match s with
          | [] => Invalid
          | c :: r =>
              if c =? QUOTE then
                match scanstring r with
                | Some (t, rest) => Parsed (PyStr t) rest
                | None => Invalid
                end
              else if c =? chr "{" then
                match skip_ws r with
                | c1 :: r1 =>
                    if c1 =? chr "}" then Parsed (PyDict []) r1
                    else scan fuel (ObjectItems []) (c1 :: r1)
                | [] => Invalid
                end
              else if c =? chr "[" then
                match skip_ws r with
                | c1 :: r1 =>
                    if c1 =? chr "]" then Parsed (PyList []) r1
                    else scan fuel (ArrayItems []) (c1 :: r1)
                | [] => Invalid
                end
              else
                match strip_prefix (lit "null") s with
                | Some rest => Parsed PyNone rest
                | None =>
                match strip_prefix (lit "true") s with
                | Some rest => Parsed (PyBool true) rest
                | None =>
                match strip_prefix (lit "false") s with
                | Some rest => Parsed (PyBool false) rest
                | None =>
                match strip_prefix (lit "NaN") s with
                | Some rest => Parsed (PyFloat (lit "NaN")) rest
                | None =>
                match strip_prefix (lit "Infinity") s with
                | Some rest => Parsed (PyFloat (lit "Infinity")) rest
                | None =>
                match strip_prefix (lit "-Infinity") s with
                | Some rest => Parsed (PyFloat (lit "-Infinity")) rest
                | None =>
                match match_number s with
                | Some (v, rest) => Parsed v rest
                | None => Invalid
                end end end end end end end
          end
      | ArrayItems acc =>
          match scan fuel Value s with
          | Parsed v r =>
              match skip_ws r with
              | c :: r1 =>
                  if c =? chr "]" then Parsed (PyList (acc ++ [v])) r1
                  else if c =? chr "," then
                    scan fuel (ArrayItems (acc ++ [v])) (skip_ws r1)
                  else Invalid
              | [] => Invalid
              end
          | o => o
          end
      | ObjectItems acc =>
          match s with
          | c :: r =>
              if c =? QUOTE then
                match scanstring r with
                | Some (key, r1) =>
                    match skip_ws r1 with
                    | c2 :: r2 =>
                        if c2 =? chr ":" then
                          match scan fuel Value (skip_ws r2) with
                          | Parsed v r3 =>
                              let acc' := dict_setitem key v acc in
                              match skip_ws r3 with
                              | c4 :: r4 =>
                                  if c4 =? chr "}" then Parsed (PyDict acc') r4
                                  else if c4 =? chr "," then
                                    scan fuel (ObjectItems acc') (skip_ws r4)
                                  else Invalid
                              | [] => Invalid
                              end
                          | o => o
                          end
                        else Invalid
                    | [] => Invalid
                    end
                | None => Invalid
                end
              else Invalid
          | [] => Invalid
          end
      end
  end.

Definition json_decode_error (m : string) : exn := Exn JSONDecodeError (lit m) None.

(** [json.loads(s)] for a [str]: a byte-order mark is refused, white space
    around the document is skipped, anything after it is an error.  The fuel
    is enough for every text ([json_loads_fuel]); the limits of an
    interpreter (recursion depth, digits of an [int]) are not part of the
    model. *)
Definition json_loads (s : pystr) : result pyvalue :=
  if match s with c :: _ => c =? 65279 | [] => false end then
    Raise (json_decode_error "Unexpected UTF-8 BOM (decode using utf-8-sig)")
  else
    match scan (2 * length s + 2) Value (skip_ws s) with
    | Parsed v rest =>
        match skip_ws rest with
        | [] => Ok v
        | _ :: _ => Raise (json_decode_error "Extra data")
        end
    | _ => Raise (json_decode_error "Expecting value")
    end.

(** ** The world outside the process *)

(** Calls whose order matters: random draws, the two cryptographic
    primitives (with the salt or nonce they are given), and log records. *)
Inductive event :=
| EvRandom (n : nat)
| EvDerive (salt : bytes)
| EvEncrypt (nonce : bytes)
| EvDecrypt (nonce : bytes)
| EvLogError (msg : pystr).

(** [os.environ]; the text files that can be opened for reading and the
    paths that can be opened for writing; the operating system's random
    source with the position of the next unread octet; the events so far. *)
Record World := {
  environ : gmap pystr pystr;
  files : gmap pystr pystr;
  writable : pystr -> bool;
  entropy : nat -> byte;
  cursor : nat;
  trace : list event
}.

Definition set_environ (env : gmap pystr pystr) (w : World) : World :=
  {| environ := env; files := files w; writable := writable w;
     entropy := entropy w; cursor := cursor w; trace := trace w |}.

Definition set_files (fs : gmap pystr pystr) (w : World) : World :=
  {| environ := environ w; files := fs; writable := writable w;
     entropy := entropy w; cursor := cursor w; trace := trace w |}.

Definition set_cursor (c : nat) (w : World) : World :=
  {| environ := environ w; files := files w; writable := writable w;
     entropy := entropy w; cursor := c; trace := trace w |}.

Definition add_event (ev : event) (w : World) : World :=
  {| environ := environ w; files := files w; writable := writable w;
     entropy := entropy w; cursor := cursor w; trace := trace w ++ [ev] |}.

(** A computation: it reads and changes the world and returns or raises. *)
Definition M (A : Type) : Type := World -> result A * World.

Global Instance M_ret : MRet M := fun A a w => (Ok a, w).
Global Instance M_bind : MBind M := fun A B f m w =>
  match m w with
  | (Ok a, w') => f a w'
  | (Raise e, w') => (Raise e, w')
  end.

Definition lift {A} (r : result A) : M A := fun w => (r, w).
Definition raise {A} (e : exn) : M A := fun w => (Raise e, w).
Definition emit (ev : event) : M unit := fun w => (Ok tt, add_event ev w).

(** [try: body / except ...: handler]; [handlers e] is the body of the first
    [except] clause that matches [e], if there is one.  What [body] did to
    the world before it raised stays done. *)
Definition try_except {A} (body : M A) (handlers : exn -> option (M A)) : M A :=
  fun w =>
    match body w with
    | (Ok a, w') => (Ok a, w')
    | (Raise e, w') =>
        match handlers e with
        | Some h => h w'
        | None => (Raise e, w')
        end
    end.

(** [repr] of a [str] without quotes or backslashes in it. *)
Definition str_repr (s : pystr) : pystr := 39 :: s ++ [39].

(** [os.getenv(key)] *)
Definition os_getenv (key : pystr) : M (option pystr) :=
  fun w => (Ok (environ w !! key), w).

(** [os.environ[key]] *)
Definition os_environ_getitem (key : pystr) : M pystr :=
  fun w =>
    match environ w !! key with
    | Some v => (Ok v, w)
    | None => (Raise (Exn KeyError (str_repr key) None), w)
    end.

(** [secrets.token_bytes(n)]: the next [n] octets of the random source. *)
Definition secrets_token_bytes (n : nat) : M bytes :=
  fun w =>
    (Ok (map (entropy w) (seq (cursor w) n)),
     add_event (EvRandom n) (set_cursor (cursor w + n)%nat w)).

(** [logger.error(msg)] *)
Definition logger_error (msg : pystr) : M unit := emit (EvLogError msg).

(** [open(path, 'r')] and [f.read()] *)
Definition file_read (path : pystr) : M pystr :=
  fun w =>
    match files w !! path with
    | Some text => (Ok text, w)
    | None =>
        (Raise (Exn FileNotFoundError
                  (lit "[Errno 2] No such file or directory: " ++ str_repr path)
                  None), w)
    end.

(** [open(path, 'w')]: the file is created or truncated. *)
Definition file_open_w (path : pystr) : M unit :=
  fun w =>
    if writable w path then (Ok tt, set_files (<[path := []]> (files w)) w)
    else
      (Raise (Exn OSError (lit "cannot open for writing: " ++ str_repr path) None),
       w).

(** [f.write(text)] on a file opened by [file_open_w]. *)
Definition file_write (path text : pystr) : M unit :=
  fun w =>
    (Ok tt,
     set_files (<[path := default [] (files w !! path) ++ text]> (files w)) w).

(** ** The [cryptography] package *)

Inductive hash_algorithm := SHA256.

(** [PBKDF2HMAC(algorithm, length, salt, iterations).derive(key_material)],
    [AESGCM(key).encrypt(nonce, data, associated_data)] and
    [AESGCM(key).decrypt(nonce, data, associated_data)] on octets. *)
Class Cryptography := {
  PBKDF2HMAC_derive : hash_algorithm -> nat -> bytes -> N -> bytes -> bytes;
  AESGCM_encrypt : bytes -> bytes -> bytes -> bytes -> result bytes;
  AESGCM_decrypt : bytes -> bytes -> bytes -> bytes -> result bytes
}.

(** A stand-in for the package, for running the module on concrete inputs:
    the derived key is the first octets of password, salt and a zero pad; a
    ciphertext is the plaintext masked with one octet of the key and nonce,
    followed by a 16-octet tag over key, nonce and plaintext.  Argument
    checks are those of the package. *)
Module Toy.

Definition xor_byte (a b : byte) : byte :=
  byte_of_N (N.lxor (Byte.to_N a) (Byte.to_N b)).

Definition checksum (l : bytes) : byte := fold_right xor_byte x00 l.

Definition kdf (_ : hash_algorithm) (len : nat) (salt : bytes) (_ : N)
    (key_material : bytes) : bytes :=
  firstn len (key_material ++ salt ++ repeat x00 len).

Definition tag (key nonce data : bytes) : bytes :=
  map (xor_byte (checksum (nonce ++ data)))
    (firstn 16 (key ++ repeat x00 16)).

Definition mask (key nonce : bytes) : byte := checksum (key ++ nonce).

Definition check_params (key nonce : bytes) : option exn :=
  let k := length key in
  if negb ((k =? 16) || (k =? 24) || (k =? 32))%nat then
    Some (Exn ValueError (lit "AESGCM key must be 128, 192, or 256 bits.") None)
  else if negb ((8 <=? length nonce) && (length nonce <=? 128))%nat then
    Some (Exn ValueError (lit "Nonce must be between 8 and 128 bytes") None)
  else None.

Definition encrypt (key nonce data aad : bytes) : result bytes :=
  match check_params key nonce with
  | Some e => Raise e
  | None =>
      if 2147483647 <? N.of_nat (length data) then
        Raise (Exn OverflowError
                 (lit "Data or associated data too long. Max 2**31 - 1 bytes")
                 None)
      else
        Ok (map (xor_byte (mask key nonce)) data ++ tag key nonce (aad ++ data))
  end.

Definition decrypt (key nonce data aad : bytes) : result bytes :=
  match check_params key nonce with
  | Some e => Raise e
  | None =>
      let n := (length data - 16)%nat in
      let pt := map (xor_byte (mask key nonce)) (firstn n data) in
      if (length data <? 16)%nat then Raise (Exn InvalidTag [] None)
      else if decide (skipn n data = tag key nonce (aad ++ pt)) then Ok pt
      else Raise (Exn InvalidTag [] None)
  end.

Definition crypto : Cryptography :=
  {| PBKDF2HMAC_derive := kdf; AESGCM_encrypt := encrypt;
     AESGCM_decrypt := decrypt |}.

End Toy.

(** ** [secure_storage.py] *)

(** The names the module binds at its top level, in the order of its
    statements (lines 7 to 23), each with the exception class it is bound
    to, if it is bound to one.  The module has no import from
    [exceptions.py]. *)
Definition secure_storage_globals : list (string * option exc_class) :=
  [("os", None); ("json", None); ("base64", None); ("hashlib", None);
   ("secrets", None);
   ("Any", None); ("Dict", None); ("Optional", None); ("Union", None);
   ("AESGCM", None); ("hashes", None); ("PBKDF2HMAC", None);
   ("InvalidTag", Some InvalidTag);
   ("logging", None); ("logger", None); ("SecureStorage", None)]%string.

(** The exception classes among the builtins; [EnvironmentError] is an
    alias of [OSError]. *)
Definition builtins : list (string * option exc_class) :=
  [("Exception", Some Exception); ("NameError", Some NameError);
   ("LookupError", Some LookupError); ("KeyError", Some KeyError);
   ("TypeError", Some TypeError); ("ValueError", Some ValueError);
   ("OverflowError", Some OverflowError);
   ("UnicodeError", Some UnicodeError);
   ("UnicodeEncodeError", Some UnicodeEncodeError);
   ("UnicodeDecodeError", Some UnicodeDecodeError);
   ("OSError", Some OSError); ("EnvironmentError", Some OSError);
   ("IOError", Some OSError);
   ("FileNotFoundError", Some FileNotFoundError)]%string.

Fixpoint assoc {A} (name : string) (l : list (string * A)) : option A :=
  match l with
  | [] => None
  | (n, a) :: l' => if String.eqb n name then Some a else assoc name l'
  end.

(** A global name as the functions of the module see it: the module
    namespace, then the builtins. *)
Definition lookup_name (name : string) : option (option exc_class) :=
  match assoc name secure_storage_globals with
  | Some b => Some b
  | None => assoc name builtins
  end.

(** [raise name(msg)] while [context] is being handled ([None] outside an
    [except] clause).  A name that is not bound raises [NameError]
    instead. *)
Definition raise_named {A} (name : string) (msg : pystr) (context : option exn)
    : M A :=
  match lookup_name name with
  | Some (Some c) => raise (Exn c msg context)
  | Some None =>
      raise (Exn TypeError (lit "exceptions must derive from BaseException")
               context)
  | None =>
      raise (Exn NameError (lit ("name '" ++ name ++ "' is not defined")) context)
  end.

(** [obj[key]] for a [str] key. *)
Fixpoint dict_get (key : pystr) (d : list (pyvalue * pyvalue)) : option pyvalue :=
  match d with
  | [] => None
  | (PyStr k, v) :: d' => if decide (k = key) then Some v else dict_get key d'
  | _ :: d' => dict_get key d'
  end.

Definition getitem (obj : pyvalue) (key : pystr) : result pyvalue :=
  match obj with
  | PyDict d =>
      match dict_get key d with
      | Some v => Ok v
      | None => Raise (Exn KeyError (str_repr key) None)
      end
  | PyList _ =>
      Raise (Exn TypeError
               (lit "list indices must be integers or slices, not str") None)
  | PyStr _ =>
      Raise (Exn TypeError (lit "string indices must be integers, not 'str'") None)
  | PyBytes _ =>
      Raise (Exn TypeError
               (lit "byte indices must be integers or slices, not str") None)
  | _ => Raise (Exn TypeError (lit "object is not subscriptable") None)
  end.

(** An instance: its only attribute is the name of the variable. *)
Record SecureStorage := { key_env_var : pystr }.

Definition SALT_LENGTH : nat := 16.
Definition NONCE_LENGTH : nat := 12.
Definition KEY_LENGTH : nat := 32.
Definition ITERATIONS : N := 100000.

Definition DEFAULT_KEY_ENV_VAR : pystr := lit "VAULTGPT_ENCRYPTION_KEY".

Section Methods.

Context `{Cryptography}.

(** [kdf = PBKDF2HMAC(...); kdf.derive(key_material)] *)
Definition kdf_derive (algorithm : hash_algorithm) (length : nat) (salt : bytes)
    (iterations : N) (key_material : bytes) : M bytes :=
  emit (EvDerive salt);;
  mret (PBKDF2HMAC_derive algorithm length salt iterations key_material).

(** [AESGCM(key).encrypt(nonce, data, associated_data)]; [data] must be a
    [bytes] object, and no associated data is the empty one. *)
Definition aesgcm_encrypt (key nonce : bytes) (data : pyvalue)
    (associated_data : option bytes) : M bytes :=
  emit (EvEncrypt nonce);;
  match data with
  | PyBytes b => lift (AESGCM_encrypt key nonce b (default [] associated_data))
  | _ => raise (Exn TypeError (lit "data must be bytes-like") None)
  end.

(** [AESGCM(key).decrypt(nonce, data, associated_data)] *)
Definition aesgcm_decrypt (key nonce data : bytes)
    (associated_data : option bytes) : M bytes :=
  emit (EvDecrypt nonce);;
  lift (AESGCM_decrypt key nonce data (default [] associated_data)).

(** Lines 41-46. *)
Definition _validate_environment (self : SecureStorage) : M unit :=
  v ← os_getenv (key_env_var self);
  if match v with None => true | Some [] => true | Some (_ :: _) => false end
  then
    raise_named "EnvironmentError"
      (lit "Encryption key not found in environment variable: "
       ++ key_env_var self) None
  else mret tt.

(** Lines 32-39. *)
Definition __init__ (key_env_var : pystr) : M SecureStorage :=
  let self := {| key_env_var := key_env_var |} in
  _validate_environment self;;
  mret self.

(** Lines 48-64. *)
Definition _derive_key (self : SecureStorage) (salt : bytes) : M bytes :=
  secret ← os_environ_getitem (key_env_var self);
  master_key ← lift (str_encode secret);
  kdf_derive SHA256 KEY_LENGTH salt ITERATIONS master_key.

(** Lines 79-85: the payload as the argument of [aesgcm.encrypt]. *)
Definition data_to_bytes (data : pyvalue) : result pyvalue :=
  match data with
  | PyStr s => PyBytes <$> str_encode s
  | PyDict _ => text ← json_dumps data; PyBytes <$> str_encode text
  | _ => Ok data
  end.

(** Lines 66-111. *)
Definition encrypt_data (self : SecureStorage) (data : pyvalue) : M pyvalue :=
  try_except
    (data_bytes ← lift (data_to_bytes data);
     salt ← secrets_token_bytes SALT_LENGTH;
     nonce ← secrets_token_bytes NONCE_LENGTH;
     key ← _derive_key self salt;
     encrypted_data ← aesgcm_encrypt key nonce data_bytes None;
     ciphertext_text ← lift (bytes_decode (b64encode encrypted_data));
     salt_text ← lift (bytes_decode (b64encode salt));
     nonce_text ← lift (bytes_decode (b64encode nonce));
     mret (PyDict [(PyStr (lit "ciphertext"), PyStr ciphertext_text);
                   (PyStr (lit "salt"), PyStr salt_text);
                   (PyStr (lit "nonce"), PyStr nonce_text)]))
    (fun e =>
       if isinstance e Exception then
         Some (logger_error (lit "Encryption failed: " ++ exc_str e);;
               raise_named "EncryptionError"
                 (lit "Failed to encrypt data: " ++ exc_str e) (Some e))
       else None).

(** Lines 142-146: the plaintext as JSON, else as text, else as it is.
    The local [decoded] is bound exactly when [.decode('utf-8')]
    returned. *)
Definition interpret_plaintext (decrypted_data : bytes) : result pyvalue :=
  let decoded := bytes_decode decrypted_data in
  match decoded ≫= json_loads with
  | Ok v => Ok v
  | Raise e =>
      if isinstance e UnicodeDecodeError || isinstance e JSONDecodeError then
        match decoded with
        | Ok text => Ok (PyStr text)
        | Raise _ => Ok (PyBytes decrypted_data)
        end
      else Raise e
  end.

(** Lines 113-153. *)
Definition decrypt_data (self : SecureStorage) (encrypted_data : pyvalue)
    : M pyvalue :=
  try_except
    (ciphertext ← lift (getitem encrypted_data (lit "ciphertext") ≫= b64decode);
     salt ← lift (getitem encrypted_data (lit "salt") ≫= b64decode);
     nonce ← lift (getitem encrypted_data (lit "nonce") ≫= b64decode);
     key ← _derive_key self salt;
     decrypted_data ← aesgcm_decrypt key nonce ciphertext None;
     lift (interpret_plaintext decrypted_data))
    (fun e =>
       if isinstance e InvalidTag then
         Some (logger_error
                 (lit "Decryption failed: Authentication tag verification failed");;
               raise_named "DecryptionError"
                 (lit "Authentication failed - data may have been tampered with")
                 (Some e))
       else if isinstance e Exception then
         Some (logger_error (lit "Decryption failed: " ++ exc_str e);;
               raise_named "DecryptionError"
                 (lit "Failed to decrypt data: " ++ exc_str e) (Some e))
       else None).

(** Lines 155-170. *)
Definition store_encrypted (self : SecureStorage) (data : pyvalue)
    (storage_path : pystr) : M unit :=
  try_except
    (encrypted ← encrypt_data self data;
     file_open_w storage_path;;
     text ← lift (json_dumps encrypted);
     file_write storage_path text)
    (fun e =>
       if isinstance e Exception then
         Some (raise_named "StorageError"
                 (lit "Failed to store encrypted data: " ++ exc_str e) (Some e))
       else None).

(** Lines 172-189. *)
Definition load_encrypted (self : SecureStorage) (storage_path : pystr)
    : M pyvalue :=
  try_except
    (text ← file_read storage_path;
     encrypted ← lift (json_loads text);
     decrypt_data self encrypted)
    (fun e =>
       if isinstance e Exception then
         Some (raise_named "StorageError"
                 (lit "Failed to load encrypted data: " ++ exc_str e) (Some e))
       else None).

End Methods.

(** * Definitions for the statements *)

(** Every octet, for proofs by enumeration. *)
Definition all_bytes : bytes := map (fun i => byte_of_N (N.of_nat i)) (seq 0 256).

(** The four 6-bit values of three octets. *)
Definition sextet0 (a : N) : N := N.shiftr a 2.
Definition sextet1 (a b : N) : N := N.lor (N.shiftl (N.land a 3) 4) (N.shiftr b 4).
Definition sextet2 (b c : N) : N := N.lor (N.shiftl (N.land b 15) 2) (N.shiftr c 6).
Definition sextet3 (c : N) : N := N.land c 63.

(** What decoding needs of them, as a test on two octets. *)
Definition sextet_facts (a b : byte) : bool :=
  let x := Byte.to_N a in
  let y := Byte.to_N b in
  (sextet0 x <? 64) && (sextet1 x y <? 64) && (sextet2 x y <? 64)
  && (sextet3 x <? 64)
  && (N.lor (N.shiftl (sextet0 x) 2) (N.shiftr (sextet1 x y) 4) =? x)
  && (N.shiftl (N.land (sextet1 x y) 15) 4 =? N.shiftl (N.shiftr y 4) 4)
  && (N.lor (N.shiftl (N.shiftr x 4) 4) (N.shiftr (sextet2 x y) 2) =? x)
  && (N.lor (N.shiftl (N.land (sextet2 x y) 3) 6) (sextet3 y) =? y).

(** The [str] that [b64encode(s).decode('utf-8')] is. *)
Definition b64text (s : bytes) : pystr := map Byte.to_N (b64encode s).

(** A printable ASCII character other than the quote and the backslash. *)
Definition plain_char (c : N) : bool :=
  (32 <=? c) && (c <=? 126) && negb (c =? QUOTE) && negb (c =? BACKSLASH).

(** The dict that [encrypt_data] returns for the octets of ciphertext, salt
    and nonce, and its JSON text. *)
Definition envelope (ciphertext salt nonce : bytes) : pyvalue :=
  PyDict [(PyStr (lit "ciphertext"), PyStr (b64text ciphertext));
          (PyStr (lit "salt"), PyStr (b64text salt));
          (PyStr (lit "nonce"), PyStr (b64text nonce))].

Definition envelope_text (ciphertext salt nonce : bytes) : pystr :=
  chr "{" :: QUOTE :: lit "ciphertext" ++ QUOTE :: lit ": "
  ++ QUOTE :: b64text ciphertext ++ QUOTE :: lit ", "
  ++ QUOTE :: lit "salt" ++ QUOTE :: lit ": "
  ++ QUOTE :: b64text salt ++ QUOTE :: lit ", "
  ++ QUOTE :: lit "nonce" ++ QUOTE :: lit ": "
  ++ QUOTE :: b64text nonce ++ QUOTE :: [chr "}"].

(** The three fields of an envelope, decoded (lines 127-129). *)
Definition envelope_fields (enc : pyvalue) : result (bytes * bytes * bytes) :=
  ciphertext ← getitem enc (lit "ciphertext") ≫= b64decode;
  salt ← getitem enc (lit "salt") ≫= b64decode;
  nonce ← getitem enc (lit "nonce") ≫= b64decode;
  mret (ciphertext, salt, nonce).

(** The fuel a scan needs at most. *)
Definition scan_measure (m : scan_mode) (s : pystr) : nat :=
  match m with
  | Value => 2 * length s + 1
  | ArrayItems _ | ObjectItems _ => 2 * length s + 2
  end.

(** The reading of a plaintext in the words of the specification: the JSON
    value if the octets are UTF-8 and parse as JSON; else the text if they
    are UTF-8; else the octets. *)
Definition three_way (pt : bytes) : pyvalue :=
  match bytes_decode pt with
  | Ok text =>
      match json_loads text with
      | Ok v => v
      | Raise _ => PyStr text
      end
  | Raise _ => PyBytes pt
  end.


(** The [n] octets of the random source from position [pos]. *)
Definition draw (w : World) (pos n : nat) : bytes := map (entropy w) (seq pos n).

(** The world after the two draws of [encrypt_data]. *)
Definition after_draws (w : World) : World :=
  add_event (EvRandom NONCE_LENGTH)
    (set_cursor (cursor w + SALT_LENGTH + NONCE_LENGTH)
       (add_event (EvRandom SALT_LENGTH) w)).

(** The worlds after [encrypt_data] returned and after [decrypt_data] met a
    tag that does not verify. *)
Definition after_encrypt (salt nonce : bytes) (w : World) : World :=
  add_event (EvEncrypt nonce) (add_event (EvDerive salt) (after_draws w)).


(** The key of an envelope (lines 58-64 with the constants of the class). *)
Definition derived_key `{Cryptography} (salt master_key : bytes) : bytes :=
  PBKDF2HMAC_derive SHA256 KEY_LENGTH salt ITERATIONS master_key.

(** The [except Exception] clause of [encrypt_data]. *)
Definition encrypt_handler (e : exn) : M pyvalue :=
  logger_error (lit "Encryption failed: " ++ exc_str e);;
  raise_named "EncryptionError" (lit "Failed to encrypt data: " ++ exc_str e)
    (Some e).

(** The two [except] clauses of [decrypt_data]. *)
Definition decrypt_handler (e : exn) : M pyvalue :=
  if isinstance e InvalidTag then
    logger_error (lit "Decryption failed: Authentication tag verification failed");;
    raise_named "DecryptionError"
      (lit "Authentication failed - data may have been tampered with") (Some e)
  else
    logger_error (lit "Decryption failed: " ++ exc_str e);;
    raise_named "DecryptionError" (lit "Failed to decrypt data: " ++ exc_str e)
      (Some e).

(** The [except Exception] clauses of [store_encrypted] and
    [load_encrypted]. *)
Definition store_handler (e : exn) : M unit :=
  raise_named "StorageError" (lit "Failed to store encrypted data: " ++ exc_str e)
    (Some e).

Definition load_handler (e : exn) : M pyvalue :=
  raise_named "StorageError" (lit "Failed to load encrypted data: " ++ exc_str e)
    (Some e).

(** What [open(path, 'r')] raises when there is no such file. *)
Definition file_not_found (path : pystr) : exn :=
  Exn FileNotFoundError
    (lit "[Errno 2] No such file or directory: " ++ str_repr path) None.

(** ** A concrete run *)

Definition example_secret : pystr := lit "correct-horse-battery-staple".
Definition example_storage : SecureStorage := {| key_env_var := DEFAULT_KEY_ENV_VAR |}.

(** The variable is set, no file exists, every path is writable, and the
    random source yields 3, 10, 17, ... *)
Definition example_world : World :=
  {| environ := {[ DEFAULT_KEY_ENV_VAR := example_secret ]};
     files := ∅;
     writable := fun _ => true;
     entropy := fun i => byte_of_N (N.of_nat (7 * i + 3) mod 256);
     cursor := 0;
     trace := [] |}.

Definition example_master_key : bytes := map byte_of_N example_secret.
Definition example_salt : bytes := draw example_world 0 16.
Definition example_nonce : bytes := draw example_world 16 12.
Definition example_key : bytes :=
  @derived_key Toy.crypto example_salt example_master_key.

(** The payload of the example of the specification, [{"balance": 1234.5}],
    its JSON text and its plaintext. *)
Definition balance : pyvalue :=
  PyDict [(PyStr (lit "balance"), PyFloat (lit "1234.5"))].
Definition balance_text : pystr :=
  chr "{" :: QUOTE :: lit "balance" ++ QUOTE :: lit ": 1234.5}".
Definition balance_plaintext : bytes := map byte_of_N balance_text.

Definition hello : bytes := map byte_of_N (lit "hello").

(** The ciphertexts of [hello] and of [balance] under the example key and
    nonce. *)
Definition example_ciphertext (pt : bytes) : bytes :=
  match Toy.encrypt example_key example_nonce pt [] with
  | Ok ct => ct
  | Raise _ => []
  end.
Definition hello_ciphertext : bytes := example_ciphertext hello.
Definition balance_ciphertext : bytes := example_ciphertext balance_plaintext.

(** A ciphertext whose last 16 octets are no tag. *)
Definition tampered_ciphertext : bytes :=
  map (fun i => byte_of_N (N.of_nat i)) (seq 0 21).


Definition vault : pystr := lit "/tmp/vault.json".

(** A world where the vault holds the tampered envelope. *)
Definition tampered_world : World :=
  set_files
    {[ vault := envelope_text tampered_ciphertext example_salt example_nonce ]}
    example_world.



(** ** Definitions for the further properties *)

(** What a call leaves as it was: the environment, the files, what can be
    written and the random source with its position. *)
Definition same_outside (w w' : World) : Prop :=
  environ w' = environ w /\ files w' = files w /\ writable w' = writable w
  /\ entropy w' = entropy w /\ cursor w' = cursor w.

(** An ASCII character that is neither in the base64 alphabet nor the pad. *)
Definition base64_noise (c : N) : bool :=
  (c <? 128)
  && match a2b (byte_of_N c) with Some _ => false | None => true end
  && negb (Byte.eqb (byte_of_N c) BASE64_PAD).

(** An envelope given by the values of its three entries. *)
Definition envelope_of (ciphertext salt nonce : pyvalue) : pyvalue :=
  PyDict [(PyStr (lit "ciphertext"), ciphertext);
          (PyStr (lit "salt"), salt);
          (PyStr (lit "nonce"), nonce)].








(** The values [json.loads] can return: no [bytes] anywhere, and every key
    of every dict a [str]. *)
Fixpoint json_value (v : pyvalue) : bool :=
  match v with
  | PyBytes _ => false
  | PyList l => forallb json_value l
  | PyDict d =>
      (fix members (d : list (pyvalue * pyvalue)) : bool :=
         match d with
         | [] => true
         | (PyStr _, x) :: d' => json_value x && members d'
         | _ :: _ => false
         end) d
  | _ => true
  end.


(** Induction on a value with the elements of its lists and the values of
    its dicts. *)
Section pyvalue_nested_ind.

Variable P : pyvalue -> Prop.
Hypothesis HNone : P PyNone.
Hypothesis HBool : forall b, P (PyBool b).
Hypothesis HInt : forall z, P (PyInt z).
Hypothesis HFloat : forall t, P (PyFloat t).
Hypothesis HStr : forall s, P (PyStr s).
Hypothesis HBytes : forall b, P (PyBytes b).
Hypothesis HList : forall l, List.Forall P l -> P (PyList l).
Hypothesis HDict :
  forall d, List.Forall (fun kv => P (snd kv)) d -> P (PyDict d).


End pyvalue_nested_ind.

(** ** Further examples *)

(** A second object, whose variable has another name, and a world where
    that variable holds the secret of the example. *)
Definition other_storage : SecureStorage := {| key_env_var := lit "OTHER_KEY" |}.




(** The envelope of [hello] with a field [version] added in front. *)
Definition versioned_envelope : pyvalue :=
  PyDict [(PyStr (lit "version"), PyInt 1);
          (PyStr (lit "ciphertext"), PyStr (b64text hello_ciphertext));
          (PyStr (lit "salt"), PyStr (b64text example_salt));
          (PyStr (lit "nonce"), PyStr (b64text example_nonce))].

(** The world after the first encryption of the example, and what a second
    encryption returns there. *)
Definition second_world : World :=
  after_encrypt example_salt example_nonce example_world.
Definition second_result : result pyvalue * World :=
  @encrypt_data Toy.crypto example_storage (PyStr (lit "hello")) second_world.
Definition second_envelope : pyvalue :=
  match fst second_result with Ok enc => enc | Raise _ => PyNone end.

(** * Proofs *)

(** ** Octets *)

Lemma to_N_lt (b : byte) : Byte.to_N b < 256.
Proof. pose proof (Byte.to_N_bounded b). lia. Qed.

Lemma byte_of_to_N (b : byte) : byte_of_N (Byte.to_N b) = b.
Proof. unfold byte_of_N. now rewrite Byte.of_to_N. Qed.


Lemma map_byte_of_to_N (l : bytes) : map byte_of_N (map Byte.to_N l) = l.
Proof. induction l as [|b l IH]; simpl; [easy|]. now rewrite byte_of_to_N, IH. Qed.


Lemma in_all_bytes (b : byte) : In b all_bytes.
Proof.
  assert (H : existsb (Byte.eqb b) all_bytes = true)
    by (destruct b; vm_compute; reflexivity).
  apply existsb_exists in H. destruct H as (x & Hx & E).
  apply Byte.byte_dec_bl in E. now subst.
Qed.

Lemma forall_bytes (P : byte -> bool) :
  forallb P all_bytes = true -> forall b, P b = true.
Proof. intros H b. rewrite forallb_forall in H. apply H, in_all_bytes. Qed.

Lemma forall_bytes2 (P : byte -> byte -> bool) :
  forallb (fun a => forallb (P a) all_bytes) all_bytes = true ->
  forall a b, P a b = true.
Proof.
  intros H a b. rewrite forallb_forall in H.
  exact (forall_bytes (P a) (H a (in_all_bytes a)) b).
Qed.

(** ** UTF-8 *)

Ltac bool_hyps :=
  repeat match goal with
    | H : (_ <? _) = true |- _ => apply N.ltb_lt in H
    | H : (_ <? _) = false |- _ => apply N.ltb_ge in H
    | H : (_ <=? _) = true |- _ => apply N.leb_le in H
    | H : (_ <=? _) = false |- _ => apply N.leb_gt in H
    | H : (_ =? _) = true |- _ => apply N.eqb_eq in H
    | H : (_ =? _) = false |- _ => apply N.eqb_neq in H
    | H : (_ && _)%bool = true |- _ => apply andb_true_iff in H; destruct H
    | H : negb _ = true |- _ => apply negb_true_iff in H
    | H : negb _ = false |- _ => apply negb_false_iff in H
    end.

Ltac leb_false e := replace e with false by (symmetry; apply N.leb_gt; nlia).







(** ASCII text is its own encoding. *)
Lemma utf8_decode_ascii (l : list N) :
  Forall (fun n => n < 128) l -> utf8_decode l = Some l.
Proof.
  induction 1 as [|n l Hn _ IH]; [easy|].
  cbn [utf8_decode]. apply N.ltb_lt in Hn. now rewrite Hn, IH.
Qed.


(** ** base64 *)

Lemma forall_lt64 (P : N -> bool) :
  forallb P (map N.of_nat (seq 0 64)) = true -> forall v, v < 64 -> P v = true.
Proof.
  intros H v Hv. rewrite forallb_forall in H. apply H.
  apply in_map_iff. exists (N.to_nat v). split; [lia|].
  apply in_seq. lia.
Qed.

Lemma a2b_b2a (v : N) : v < 64 -> a2b (b2a v) = Some v.
Proof.
  intros Hv.
  pose proof (forall_lt64
    (fun v => match a2b (b2a v) with Some x => x =? v | None => false end)
    ltac:(vm_compute; reflexivity) v Hv) as H.
  cbv beta in H. destruct (a2b (b2a v)); [|discriminate].
  now apply N.eqb_eq in H; subst.
Qed.

Lemma b2a_not_pad (v : N) : v < 64 -> Byte.eqb (b2a v) BASE64_PAD = false.
Proof.
  intros Hv. apply negb_true_iff.
  apply (forall_lt64 (fun v => negb (Byte.eqb (b2a v) BASE64_PAD))); [|exact Hv].
  vm_compute. reflexivity.
Qed.

Lemma b2a_ascii (v : N) : Byte.to_N (b2a v) < 128.
Proof.
  unfold b2a.
  assert (H : forallb (fun b => Byte.to_N b <? 128) (x00 :: table_b2a_base64) = true)
    by (vm_compute; reflexivity).
  rewrite forallb_forall in H. apply N.ltb_lt, H.
  destruct (nth_in_or_default (N.to_nat v) table_b2a_base64 x00) as [Hin|E].
  - now right.
  - rewrite E. now left.
Qed.

Lemma sextet_facts_hold (a b : byte) : sextet_facts a b = true.
Proof. revert a b. apply forall_bytes2. vm_compute. reflexivity. Qed.

Ltac sextet_fact a b :=
  let H := fresh in
  pose proof (sextet_facts_hold a b) as H; unfold sextet_facts in H;
  cbv zeta in H; bool_hyps; first [assumption | lia].

Lemma sextet0_lt (a : byte) : sextet0 (Byte.to_N a) < 64.
Proof. sextet_fact a a. Qed.

Lemma sextet1_lt (a b : byte) : sextet1 (Byte.to_N a) (Byte.to_N b) < 64.
Proof. sextet_fact a b. Qed.

Lemma sextet2_lt (a b : byte) : sextet2 (Byte.to_N a) (Byte.to_N b) < 64.
Proof. sextet_fact a b. Qed.

Lemma sextet3_lt (a : byte) : sextet3 (Byte.to_N a) < 64.
Proof. sextet_fact a a. Qed.

Lemma octet0_eq (a b : byte) :
  N.lor (N.shiftl (sextet0 (Byte.to_N a)) 2)
        (N.shiftr (sextet1 (Byte.to_N a) (Byte.to_N b)) 4) = Byte.to_N a.
Proof. sextet_fact a b. Qed.

Lemma octet1_high (a b : byte) :
  N.shiftl (N.land (sextet1 (Byte.to_N a) (Byte.to_N b)) 15) 4
  = N.shiftl (N.shiftr (Byte.to_N b) 4) 4.
Proof. sextet_fact a b. Qed.

Lemma octet1_eq (a b : byte) :
  N.lor (N.shiftl (N.shiftr (Byte.to_N a) 4) 4)
        (N.shiftr (sextet2 (Byte.to_N a) (Byte.to_N b)) 2) = Byte.to_N a.
Proof. sextet_fact a b. Qed.

Lemma octet2_eq (a b : byte) :
  N.lor (N.shiftl (N.land (sextet2 (Byte.to_N a) (Byte.to_N b)) 3) 6)
        (sextet3 (Byte.to_N b)) = Byte.to_N b.
Proof. sextet_fact a b. Qed.

(** A character of the alphabet, in each position of a quad. *)
Lemma a2b_base64_loop_char (v : N) (rest : bytes) (quad_pos : nat) (leftchar : N)
    (pads : nat) :
  v < 64 ->
  a2b_base64_loop (b2a v :: rest) quad_pos leftchar pads =
    match quad_pos with
    | O => a2b_base64_loop rest 1 v 0
    | 1%nat =>
        cons (N.lor (N.shiftl leftchar 2) (N.shiftr v 4))
          <$> a2b_base64_loop rest 2 (N.shiftl (N.land v 15) 4) 0
    | 2%nat =>
        cons (N.lor leftchar (N.shiftr v 2))
          <$> a2b_base64_loop rest 3 (N.shiftl (N.land v 3) 6) 0
    | _ => cons (N.lor leftchar v) <$> a2b_base64_loop rest 0 0 0
    end.
Proof.
  intros Hv. cbn [a2b_base64_loop].
  now rewrite (b2a_not_pad v Hv), (a2b_b2a v Hv).
Qed.

Lemma a2b_base64_loop_quad (a b c : byte) (rest : bytes) (leftchar : N) :
  a2b_base64_loop
    (b2a (sextet0 (Byte.to_N a))
     :: b2a (sextet1 (Byte.to_N a) (Byte.to_N b))
     :: b2a (sextet2 (Byte.to_N b) (Byte.to_N c))
     :: b2a (sextet3 (Byte.to_N c)) :: rest) 0 leftchar 0 =
  (fun r => Byte.to_N a :: Byte.to_N b :: Byte.to_N c :: r)
    <$> a2b_base64_loop rest 0 0 0.
Proof.
  rewrite a2b_base64_loop_char by apply sextet0_lt.
  rewrite a2b_base64_loop_char by apply sextet1_lt.
  rewrite a2b_base64_loop_char by apply sextet2_lt.
  rewrite a2b_base64_loop_char by apply sextet3_lt.
  rewrite octet0_eq, octet1_high, octet1_eq, octet2_eq.
  now destruct (a2b_base64_loop rest 0 0 0).
Qed.

Lemma list_ind3 {A} (P : list A -> Prop) :
  P [] -> (forall a, P [a]) -> (forall a b, P [a; b]) ->
  (forall a b c l, P l -> P (a :: b :: c :: l)) ->
  forall l, P l.
Proof.
  intros H0 H1 H2 H3.
  assert (H : forall l, P l /\ (forall a, P (a :: l)) /\ (forall a b, P (a :: b :: l))).
  { induction l as [|x l (IH0 & IH1 & IH2)]; [now auto|].
    split; [apply IH1|]. split; [intros; apply IH2|]. intros; now apply H3. }
  intros l. apply H.
Qed.

Lemma a2b_base64_loop_b2a (s : bytes) :
  a2b_base64_loop (b2a_base64 (map Byte.to_N s)) 0 0 0 = Ok (map Byte.to_N s).
Proof.
  induction s as [|a|a b|a b c s IH] using list_ind3.
  - reflexivity.
  - cbn [map b2a_base64].
    pose proof (sextet0_lt a) as H0. pose proof (sextet1_lt a x00) as H1.
    pose proof (octet0_eq a x00) as E.
    unfold sextet0, sextet1 in *. change (Byte.to_N x00) with 0 in *.
    change (N.shiftr 0 4) with 0 in *. rewrite N.lor_0_r in *.
    rewrite a2b_base64_loop_char by exact H0.
    rewrite a2b_base64_loop_char by exact H1.
    rewrite E. reflexivity.
  - cbn [map b2a_base64].
    pose proof (sextet0_lt a) as H0. pose proof (sextet1_lt a b) as H1.
    pose proof (sextet2_lt b x00) as H2.
    pose proof (octet0_eq a b) as E0. pose proof (octet1_high a b) as E1.
    pose proof (octet1_eq b x00) as E2.
    unfold sextet0, sextet1, sextet2 in *. change (Byte.to_N x00) with 0 in *.
    change (N.shiftr 0 6) with 0 in *. rewrite N.lor_0_r in *.
    rewrite a2b_base64_loop_char by exact H0.
    rewrite a2b_base64_loop_char by exact H1.
    rewrite a2b_base64_loop_char by exact H2.
    rewrite E0, E1, E2. reflexivity.
  - cbn [map b2a_base64].
    pose proof (a2b_base64_loop_quad a b c (b2a_base64 (map Byte.to_N s)) 0) as Hq.
    unfold sextet0, sextet1, sextet2, sextet3 in Hq. rewrite Hq, IH. reflexivity.
Qed.

(** Decoding an encoding gives the octets back. *)
Lemma a2b_base64_b64encode (s : bytes) : a2b_base64 (b64encode s) = Ok s.
Proof.
  unfold a2b_base64, b64encode. rewrite a2b_base64_loop_b2a.
  cbn. now rewrite map_byte_of_to_N.
Qed.

Lemma b2a_base64_ascii (l : list N) :
  Forall (fun n => n < 128) (map Byte.to_N (b2a_base64 l)).
Proof.
  assert (Hpad : Byte.to_N BASE64_PAD < 128) by (vm_compute; reflexivity).
  induction l as [|a|a b|a b c l IH] using list_ind3; cbn [b2a_base64 map];
    repeat match goal with
      | |- Forall _ (_ :: _) => constructor
      | |- Forall _ [] => constructor
      end;
    first [apply b2a_ascii | exact Hpad | exact IH].
Qed.

Lemma bytes_decode_b64encode (s : bytes) : bytes_decode (b64encode s) = Ok (b64text s).
Proof.
  unfold bytes_decode, b64text, b64encode.
  now rewrite utf8_decode_ascii by apply b2a_base64_ascii.
Qed.

Lemma b64decode_b64text (s : bytes) : b64decode (PyStr (b64text s)) = Ok s.
Proof.
  unfold b64decode, bytes_from_decode_data, b64text.
  replace (forallb _ _) with true.
  - cbn. rewrite map_byte_of_to_N. apply a2b_base64_b64encode.
  - symmetry. apply forallb_forall. intros n Hn.
    pose proof (b2a_base64_ascii (map Byte.to_N s)) as H.
    rewrite List.Forall_forall in H. apply N.ltb_lt. now apply H.
Qed.

(** ** The stand-in satisfies the laws assumed of the package *)


Lemma toy_kdf_length alg (n : nat) salt it pw :
  length (Toy.kdf alg n salt it pw) = n.
Proof.
  unfold Toy.kdf. rewrite length_firstn, !length_app, repeat_length. lia.
Qed.

Lemma toy_tag_length key nonce data : length (Toy.tag key nonce data) = 16%nat.
Proof.
  unfold Toy.tag. rewrite length_map, length_firstn, length_app, repeat_length. lia.
Qed.



Lemma toy_encrypt_length key nonce data aad ct :
  Toy.encrypt key nonce data aad = Ok ct -> length ct = (length data + 16)%nat.
Proof.
  unfold Toy.encrypt. destruct (Toy.check_params key nonce); [discriminate|].
  destruct (_ <? _); [discriminate|]. intros H; inversion H; subst.
  now rewrite length_app, length_map, toy_tag_length.
Qed.


(** ** JSON text of strings that need no escape *)

Lemma escape_char_plain (c : N) : plain_char c = true -> escape_char c = [c].
Proof.
  unfold plain_char, escape_char, QUOTE, BACKSLASH. intros H. bool_hyps.
  repeat match goal with
    | |- context [?a =? ?b] =>
        replace (a =? b) with false by (symmetry; apply N.eqb_neq; lia)
    end.
  replace (32 <=? c) with true by (symmetry; apply N.leb_le; lia).
  replace (c <=? 126) with true by (symmetry; apply N.leb_le; lia).
  reflexivity.
Qed.

Lemma encode_basestring_ascii_plain (s : pystr) :
  forallb plain_char s = true ->
  encode_basestring_ascii s = QUOTE :: s ++ [QUOTE].
Proof.
  intros H. unfold encode_basestring_ascii. f_equal. f_equal.
  induction s as [|c s IH]; [easy|].
  cbn [forallb] in H. apply andb_true_iff in H as [Hc Hs].
  cbn [flat_map]. now rewrite escape_char_plain, IH.
Qed.

Lemma scanstring_plain (s rest : pystr) :
  forallb plain_char s = true ->
  scanstring (s ++ QUOTE :: rest) = Some (s, rest).
Proof.
  intros H. induction s as [|c s IH].
  - reflexivity.
  - cbn [forallb] in H. apply andb_true_iff in H as [Hc Hs].
    cbn [app scanstring]. rewrite (IH Hs).
    unfold plain_char in Hc. bool_hyps.
    replace (c =? QUOTE) with false by (symmetry; now apply N.eqb_neq).
    replace (c =? BACKSLASH) with false by (symmetry; now apply N.eqb_neq).
    replace (c <? 32) with false by (symmetry; apply N.ltb_ge; lia).
    reflexivity.
Qed.

(** A string value. *)
Lemma scan_plain_string (fuel : nat) (s rest : pystr) :
  forallb plain_char s = true ->
  scan (S fuel) Value (QUOTE :: s ++ QUOTE :: rest) = Parsed (PyStr s) rest.
Proof.
  intros H. cbn [scan]. change (QUOTE =? QUOTE) with true. cbv iota.
  now rewrite scanstring_plain.
Qed.

(** A member [key: value] of an object, both strings: what follows decides
    between the end of the object and the next member. *)
Lemma scan_plain_member (fuel : nat) (acc : list (pyvalue * pyvalue))
    (key s rest : pystr) :
  forallb plain_char key = true -> forallb plain_char s = true ->
  scan (S (S fuel)) (ObjectItems acc)
       (QUOTE :: key ++ QUOTE :: lit ": " ++ QUOTE :: s ++ QUOTE :: rest) =
  match skip_ws rest with
  | c :: r =>
      if c =? chr "}" then Parsed (PyDict (dict_setitem key (PyStr s) acc)) r
      else if c =? chr ","
           then scan (S fuel) (ObjectItems (dict_setitem key (PyStr s) acc))
                  (skip_ws r)
           else Invalid
  | [] => Invalid
  end.
Proof.
  intros Hk Hs. remember (S fuel) as fuel1 eqn:E.
  cbn [scan]. change (QUOTE =? QUOTE) with true. cbv iota.
  rewrite scanstring_plain by exact Hk.
  change (skip_ws (lit ": " ++ QUOTE :: s ++ QUOTE :: rest))
    with (58 :: 32 :: QUOTE :: s ++ QUOTE :: rest).
  cbv iota. change (58 =? chr ":") with true. cbv iota.
  change (skip_ws (32 :: QUOTE :: s ++ QUOTE :: rest))
    with (QUOTE :: s ++ QUOTE :: rest).
  subst fuel1. now rewrite (scan_plain_string fuel s rest Hs).
Qed.

(** *** The envelope as a JSON document *)

Lemma b2a_plain (v : N) : v < 64 -> plain_char (Byte.to_N (b2a v)) = true.
Proof.
  apply (forall_lt64 (fun v => plain_char (Byte.to_N (b2a v)))).
  vm_compute. reflexivity.
Qed.

Lemma b64text_plain (s : bytes) : forallb plain_char (b64text s) = true.
Proof.
  unfold b64text, b64encode.
  induction s as [|a|a b|a b c s IH] using list_ind3; cbn [map b2a_base64 forallb].
  - reflexivity.
  - pose proof (sextet0_lt a) as H0. pose proof (sextet1_lt a x00) as H1.
    unfold sextet0, sextet1 in *. change (Byte.to_N x00) with 0 in *.
    change (N.shiftr 0 4) with 0 in *. rewrite N.lor_0_r in *.
    now rewrite !b2a_plain.
  - pose proof (sextet0_lt a) as H0. pose proof (sextet1_lt a b) as H1.
    pose proof (sextet2_lt b x00) as H2.
    unfold sextet0, sextet1, sextet2 in *. change (Byte.to_N x00) with 0 in *.
    change (N.shiftr 0 6) with 0 in *. rewrite N.lor_0_r in *.
    now rewrite !b2a_plain.
  - pose proof (sextet0_lt a) as H0. pose proof (sextet1_lt a b) as H1.
    pose proof (sextet2_lt b c) as H2. pose proof (sextet3_lt c) as H3.
    unfold sextet0, sextet1, sextet2, sextet3 in *.
    rewrite !b2a_plain by assumption. exact IH.
Qed.

Lemma json_dumps_envelope (c s n : bytes) :
  json_dumps (envelope c s n) = Ok (envelope_text c s n).
Proof.
  unfold envelope. cbn [json_dumps encode_key].
  rewrite !(encode_basestring_ascii_plain (b64text _)) by apply b64text_plain.
  rewrite !(encode_basestring_ascii_plain (lit _)) by (vm_compute; reflexivity).
  cbn [fmap result_fmap join_comma]. unfold envelope_text.
  f_equal. f_equal. repeat (rewrite <- ?app_assoc; cbn [app]). reflexivity.
Qed.

Lemma scan_value_object (fuel : nat) (r : pystr) (c1 : N) (r1 : pystr) :
  skip_ws r = c1 :: r1 -> (c1 =? chr "}") = false ->
  scan (S fuel) Value (chr "{" :: r) = scan fuel (ObjectItems []) (c1 :: r1).
Proof.
  intros Hr Hc. cbn [scan].
  change (chr "{" =? QUOTE) with false. change (chr "{" =? chr "{") with true.
  cbv iota. now rewrite Hr, Hc.
Qed.

Lemma json_loads_envelope (c s n : bytes) :
  json_loads (envelope_text c s n) = Ok (envelope c s n).
Proof.
  unfold json_loads.
  remember (2 * length (envelope_text c s n) + 2)%nat as fuel eqn:Hfuel.
  assert (Hf : (5 <= fuel)%nat).
  { subst fuel. unfold envelope_text. cbn [length]. lia. }
  destruct fuel as [|[|[|[|[|fuel]]]]]; try lia. clear Hfuel Hf.
  unfold envelope_text.
  change (chr "{" =? 65279) with false. cbv iota.
  change (skip_ws (chr "{" :: ?x)) with (chr "{" :: x).
  erewrite scan_value_object; [|reflexivity|reflexivity].
  rewrite scan_plain_member; [|vm_compute; reflexivity|apply b64text_plain].
  change (skip_ws (lit ", " ++ ?x)) with (44 :: 32 :: x). cbv iota.
  change (44 =? chr "}") with false. change (44 =? chr ",") with true. cbv iota.
  change (skip_ws (32 :: QUOTE :: ?x)) with (QUOTE :: x).
  rewrite scan_plain_member; [|vm_compute; reflexivity|apply b64text_plain].
  change (skip_ws (lit ", " ++ ?x)) with (44 :: 32 :: x). cbv iota.
  change (44 =? chr "}") with false. change (44 =? chr ",") with true. cbv iota.
  change (skip_ws (32 :: QUOTE :: ?x)) with (QUOTE :: x).
  rewrite scan_plain_member; [|vm_compute; reflexivity|apply b64text_plain].
  reflexivity.
Qed.

(** *** The fuel of [json_loads] never runs out *)

Lemma skip_ws_length (s : pystr) : (length (skip_ws s) <= length s)%nat.
Proof.
  induction s as [|c s IH]; cbn [skip_ws length]; [lia|].
  destruct (is_ws c); cbn [length]; lia.
Qed.

Lemma skip_ws_cons_length (s : pystr) (c : N) (r : pystr) :
  skip_ws s = c :: r -> (length r < length s)%nat.
Proof.
  intros H. pose proof (skip_ws_length s) as L. rewrite H in L.
  cbn [length] in L. lia.
Qed.

Lemma scanstring_length (s t rest : pystr) :
  scanstring s = Some (t, rest) -> (length rest < length s)%nat.
Proof.
  remember (length s) as n eqn:Hn. revert s t rest Hn.
  induction n as [n IH] using lt_wf_ind. intros s t rest Hn H.
  destruct s as [|c r]; [discriminate|]. cbn [scanstring] in H.
  cbn [length] in Hn.
  assert (step : forall (r' : pystr) x, (length r' <= length r)%nat ->
            match scanstring r' with
            | Some (t0, rest0) => Some (x :: t0, rest0)
            | None => None
            end = Some (t, rest) -> (length rest < n)%nat).
  { intros r' x Hr' E. destruct (scanstring r') as [[t0 rest0]|] eqn:Er'; [|discriminate].
    inversion E; subst.
    assert ((length rest < length r')%nat)
      by (eapply (IH (length r')); [lia|reflexivity|exact Er']).
    lia. }
  destruct (c =? QUOTE).
  { inversion H; subst. lia. }
  destruct (c =? BACKSLASH).
  - destruct r as [|e r1]; [discriminate|].
    destruct (e =? chr "u").
    + destruct r1 as [|h1 [|h2 [|h3 [|h4 r2]]]]; try discriminate.
      destruct (hex4 h1 h2 h3 h4) as [uni|]; [|discriminate].
      cbn [length] in *.
      assert (Hs : match scanstring r2 with
                   | Some (t0, rest0) => Some (uni :: t0, rest0)
                   | None => None
                   end = Some (t, rest) -> (length rest < n)%nat)
        by (apply step; cbn [length]; lia).
      destruct (is_high_surrogate uni); [|exact (Hs H)].
      destruct r2 as [|b [|u [|g1 [|g2 [|g3 [|g4 r3]]]]]]; try exact (Hs H).
      destruct ((b =? BACKSLASH) && (u =? chr "u")); [|exact (Hs H)].
      destruct (hex4 g1 g2 g3 g4) as [uni2|]; [|discriminate].
      destruct (is_low_surrogate uni2); [|exact (Hs H)].
      eapply (step r3); [cbn [length]; lia|exact H].
    + destruct (unescape e) as [x|]; [|discriminate].
      eapply (step r1 x); [cbn [length]; lia|].
      destruct (scanstring r1) as [[? ?]|]; exact H.
  - destruct (c <? 32); [discriminate|].
    eapply step; [|exact H]. lia.
Qed.

Lemma span_digits_length (s ds rest : pystr) :
  span_digits s = (ds, rest) -> (length rest <= length s)%nat.
Proof.
  revert ds rest. induction s as [|c s IH]; intros ds rest H; cbn [span_digits] in H.
  - inversion H. cbn; lia.
  - destruct (is_digit c).
    + destruct (span_digits s) as [ds' rest'] eqn:E. inversion H; subst.
      specialize (IH _ _ eq_refl). cbn [length]. lia.
    + inversion H; subst. lia.
Qed.

Lemma strip_prefix_length (p s rest : pystr) :
  strip_prefix p s = Some rest -> (length rest + length p = length s)%nat.
Proof.
  revert s. induction p as [|a p IH]; intros s H; cbn [strip_prefix] in H.
  - inversion H. cbn [length]. lia.
  - destruct s as [|b s]; [discriminate|]. destruct (a =? b); [|discriminate].
    apply IH in H. cbn [length]. lia.
Qed.

Lemma number_sign_length (s t rest : pystr) :
  number_sign s = (t, rest) -> (length rest <= length s)%nat.
Proof.
  unfold number_sign. destruct s as [|c r]; [|destruct (c =? chr "-")];
    intros H; inversion H; subst; cbn [length]; lia.
Qed.

Lemma number_integer_length (s t rest : pystr) :
  number_integer s = Some (t, rest) -> (length rest < length s)%nat.
Proof.
  unfold number_integer. destruct s as [|c r]; [discriminate|].
  destruct ((49 <=? c) && (c <=? 57)).
  - destruct (span_digits r) as [ds rest'] eqn:E.
    apply span_digits_length in E. intros H; inversion H; subst.
    cbn [length]. lia.
  - destruct (c =? 48); [|discriminate]. intros H; inversion H; subst.
    cbn [length]. lia.
Qed.

Lemma number_fraction_length (s t rest : pystr) :
  number_fraction s = (t, rest) -> (length rest <= length s)%nat.
Proof.
  unfold number_fraction. destruct s as [|p [|d r]];
    try (intros H; inversion H; subst; cbn [length]; lia).
  destruct ((p =? chr ".") && is_digit d).
  - destruct (span_digits r) as [ds rest'] eqn:E.
    apply span_digits_length in E. intros H; inversion H; subst.
    cbn [length]. lia.
  - intros H; inversion H; subst. cbn [length]. lia.
Qed.

Lemma number_exponent_length (s t rest : pystr) :
  number_exponent s = (t, rest) -> (length rest <= length s)%nat.
Proof.
  unfold number_exponent. destruct s as [|e r];
    [intros H; inversion H; subst; cbn [length]; lia|].
  destruct ((e =? chr "e") || (e =? chr "E"));
    [|intros H; inversion H; subst; cbn [length]; lia].
  assert (Hr : forall sign r1,
            match r with
            | g :: r' =>
                if (g =? chr "+") || (g =? chr "-") then ([g], r') else ([], r)
            | [] => ([], r)
            end = (sign, r1) -> (length r1 <= length r)%nat).
  { intros sign r1. destruct r as [|g r']; [|destruct (_ || _)];
      intros H; inversion H; subst; cbn [length]; lia. }
  destruct (match r with [] => _ | _ => _ end) as [sign r1].
  pose proof (Hr sign r1 eq_refl) as E1.
  destruct (span_digits r1) as [ds rest'] eqn:E2.
  apply span_digits_length in E2.
  destruct ds; intros H; inversion H; subst; cbn [length]; lia.
Qed.

Lemma match_number_length (s : pystr) (v : pyvalue) (rest : pystr) :
  match_number s = Some (v, rest) -> (length rest < length s)%nat.
Proof.
  unfold match_number.
  destruct (number_sign s) as [sign s1] eqn:E1. apply number_sign_length in E1.
  destruct (number_integer s1) as [[ds s2]|] eqn:E2; [|discriminate].
  apply number_integer_length in E2.
  destruct (number_fraction s2) as [frac s3] eqn:E3.
  apply number_fraction_length in E3.
  destruct (number_exponent s3) as [exp s4] eqn:E4.
  apply number_exponent_length in E4.
  destruct frac, exp; intros H; inversion H; subst; lia.
Qed.

(** Every successful scan reads at least one character. *)
Lemma scan_length (fuel : nat) (m : scan_mode) (s : pystr) (v : pyvalue)
    (rest : pystr) :
  scan fuel m s = Parsed v rest -> (length rest < length s)%nat.
Proof.
  revert m s v rest. induction fuel as [|fuel IH]; intros m s v rest H;
    [discriminate|].
  cbn [scan] in H. destruct m as [|acc|acc].
  - destruct s as [|c r]; [discriminate|]. cbn [length].
    destruct (c =? QUOTE).
    { destruct (scanstring r) as [[t rest']|] eqn:E; [|discriminate].
      apply scanstring_length in E. inversion H; subst. lia. }
    destruct (c =? chr "{").
    { destruct (skip_ws r) as [|c1 r1] eqn:E; [discriminate|].
      apply skip_ws_cons_length in E.
      destruct (c1 =? chr "}"); [inversion H; subst; lia|].
      apply IH in H. cbn [length] in H.
      pose proof (skip_ws_length r). lia. }
    destruct (c =? chr "[").
    { destruct (skip_ws r) as [|c1 r1] eqn:E; [discriminate|].
      apply skip_ws_cons_length in E.
      destruct (c1 =? chr "]"); [inversion H; subst; lia|].
      apply IH in H. cbn [length] in H.
      pose proof (skip_ws_length r). lia. }
    assert (Hp : forall p rest', strip_prefix p (c :: r) = Some rest' ->
                   p <> [] -> (length rest' < S (length r))%nat).
    { intros p rest' E Hp. apply strip_prefix_length in E.
      destruct p; [congruence|]. cbn [length] in E. lia. }
    destruct (strip_prefix (lit "null") (c :: r)) eqn:E1;
      [inversion H; subst; now apply (Hp _ _ E1)|].
    destruct (strip_prefix (lit "true") (c :: r)) eqn:E2;
      [inversion H; subst; now apply (Hp _ _ E2)|].
    destruct (strip_prefix (lit "false") (c :: r)) eqn:E3;
      [inversion H; subst; now apply (Hp _ _ E3)|].
    destruct (strip_prefix (lit "NaN") (c :: r)) eqn:E4;
      [inversion H; subst; now apply (Hp _ _ E4)|].
    destruct (strip_prefix (lit "Infinity") (c :: r)) eqn:E5;
      [inversion H; subst; now apply (Hp _ _ E5)|].
    destruct (strip_prefix (lit "-Infinity") (c :: r)) eqn:E6;
      [inversion H; subst; now apply (Hp _ _ E6)|].
    destruct (match_number (c :: r)) as [[v' rest']|] eqn:E; [|discriminate].
    apply match_number_length in E. inversion H; subst. cbn [length] in E. lia.
  - destruct (scan fuel Value s) as [v1 r1| |] eqn:E; try discriminate.
    apply IH in E.
    destruct (skip_ws r1) as [|c r2] eqn:E2; [discriminate|].
    apply skip_ws_cons_length in E2.
    destruct (c =? chr "]"); [inversion H; subst; lia|].
    destruct (c =? chr ","); [|discriminate].
    apply IH in H. pose proof (skip_ws_length r2). lia.
  - destruct s as [|c r]; [discriminate|]. cbn [length].
    destruct (c =? QUOTE); [|discriminate].
    destruct (scanstring r) as [[key r1]|] eqn:E1; [|discriminate].
    apply scanstring_length in E1.
    destruct (skip_ws r1) as [|c2 r2] eqn:E2; [discriminate|].
    apply skip_ws_cons_length in E2.
    destruct (c2 =? chr ":"); [|discriminate].
    destruct (scan fuel Value (skip_ws r2)) as [v1 r3| |] eqn:E3; try discriminate.
    apply IH in E3. pose proof (skip_ws_length r2).
    destruct (skip_ws r3) as [|c4 r4] eqn:E4; [discriminate|].
    apply skip_ws_cons_length in E4.
    destruct (c4 =? chr "}"); [inversion H; subst; lia|].
    destruct (c4 =? chr ","); [|discriminate].
    apply IH in H. pose proof (skip_ws_length r4). lia.
Qed.

Lemma scan_fuel_enough (fuel : nat) (m : scan_mode) (s : pystr) :
  (scan_measure m s <= fuel)%nat -> scan fuel m s <> OutOfFuel.
Proof.
  revert m s. induction fuel as [|fuel IH]; intros m s Hm.
  { destruct m; cbn in Hm; lia. }
  cbn [scan]. destruct m as [|acc|acc]; cbn [scan_measure] in Hm.
  - destruct s as [|c r]; [discriminate|]. cbn [length] in Hm.
    destruct (c =? QUOTE).
    { destruct (scanstring r) as [[t rest']|]; discriminate. }
    destruct (c =? chr "{").
    { destruct (skip_ws r) as [|c1 r1] eqn:E; [discriminate|].
      apply skip_ws_cons_length in E.
      destruct (c1 =? chr "}"); [discriminate|].
      apply IH. cbn [scan_measure length]. lia. }
    destruct (c =? chr "[").
    { destruct (skip_ws r) as [|c1 r1] eqn:E; [discriminate|].
      apply skip_ws_cons_length in E.
      destruct (c1 =? chr "]"); [discriminate|].
      apply IH. cbn [scan_measure length]. lia. }
    destruct (strip_prefix (lit "null") (c :: r)); [discriminate|].
    destruct (strip_prefix (lit "true") (c :: r)); [discriminate|].
    destruct (strip_prefix (lit "false") (c :: r)); [discriminate|].
    destruct (strip_prefix (lit "NaN") (c :: r)); [discriminate|].
    destruct (strip_prefix (lit "Infinity") (c :: r)); [discriminate|].
    destruct (strip_prefix (lit "-Infinity") (c :: r)); [discriminate|].
    destruct (match_number (c :: r)) as [[v' rest']|]; discriminate.
  - destruct (scan fuel Value s) as [v1 r1| |] eqn:E.
    + apply scan_length in E.
      destruct (skip_ws r1) as [|c r2] eqn:E2; [discriminate|].
      apply skip_ws_cons_length in E2.
      destruct (c =? chr "]"); [discriminate|].
      destruct (c =? chr ","); [|discriminate].
      apply IH. cbn [scan_measure]. pose proof (skip_ws_length r2). lia.
    + discriminate.
    + exfalso. revert E. apply IH. cbn [scan_measure]. lia.
  - destruct s as [|c r]; [discriminate|]. cbn [length] in Hm.
    destruct (c =? QUOTE); [|discriminate].
    destruct (scanstring r) as [[key r1]|] eqn:E1; [|discriminate].
    apply scanstring_length in E1.
    destruct (skip_ws r1) as [|c2 r2] eqn:E2; [discriminate|].
    apply skip_ws_cons_length in E2.
    destruct (c2 =? chr ":"); [|discriminate].
    pose proof (skip_ws_length r2).
    destruct (scan fuel Value (skip_ws r2)) as [v1 r3| |] eqn:E3.
    + apply scan_length in E3.
      destruct (skip_ws r3) as [|c4 r4] eqn:E4; [discriminate|].
      apply skip_ws_cons_length in E4.
      destruct (c4 =? chr "}"); [discriminate|].
      destruct (c4 =? chr ","); [|discriminate].
      apply IH. cbn [scan_measure]. pose proof (skip_ws_length r4). lia.
    + discriminate.
    + exfalso. revert E3. apply IH. cbn [scan_measure]. lia.
Qed.

(** [json_loads] never stops for lack of fuel. *)
Lemma json_loads_fuel (s : pystr) :
  scan (2 * length s + 2) Value (skip_ws s) <> OutOfFuel.
Proof.
  apply scan_fuel_enough. cbn [scan_measure].
  pose proof (skip_ws_length s). lia.
Qed.

(** ** Exceptions and handlers *)

Lemma isinstance_Exception (e : exn) : isinstance e Exception = true.
Proof. destruct e as [c m x]. destruct c; reflexivity. Qed.


(** The three classes of [exceptions.py] that the module names are not bound
    in it. *)
Lemma storage_errors_unbound :
  lookup_name "StorageError" = None /\ lookup_name "EncryptionError" = None
  /\ lookup_name "DecryptionError" = None.
Proof. repeat split; reflexivity. Qed.

(** ** The three-way reading of a plaintext *)

Lemma bytes_decode_raises (b : bytes) (e : exn) :
  bytes_decode b = Raise e -> exc_cls e = UnicodeDecodeError.
Proof.
  unfold bytes_decode. destruct (utf8_decode _); [discriminate|].
  intros E; inversion E. reflexivity.
Qed.

Lemma json_loads_raises (s : pystr) (e : exn) :
  json_loads s = Raise e -> exc_cls e = JSONDecodeError.
Proof.
  unfold json_loads. destruct (match s with [] => _ | _ => _ end).
  { intros E; inversion E. reflexivity. }
  destruct (scan _ _ _) as [v rest| |]; try (intros E; inversion E; reflexivity).
  destruct (skip_ws rest); intros E; inversion E. reflexivity.
Qed.

Lemma interpret_plaintext_three_way (pt : bytes) :
  interpret_plaintext pt = Ok (three_way pt).
Proof.
  unfold interpret_plaintext, three_way.
  destruct (bytes_decode pt) as [text|e] eqn:Ed; cbn [mbind result_bind].
  - destruct (json_loads text) as [v|e] eqn:Ej; [reflexivity|].
    apply json_loads_raises in Ej. unfold isinstance. rewrite Ej.
    reflexivity.
  - apply bytes_decode_raises in Ed. unfold isinstance. rewrite Ed. reflexivity.
Qed.

(** A [try] whose [except] clauses catch every exception. *)
Lemma try_except_all {A} (body : M A) (handlers : exn -> option (M A))
    (handler : exn -> M A) (w : World) :
  (forall e, handlers e = Some (handler e)) ->
  try_except body handlers w =
    match body w with
    | (Ok a, w') => (Ok a, w')
    | (Raise e, w') => handler e w'
    end.
Proof.
  intros Hh. unfold try_except. destruct (body w) as [[a|e] w']; [reflexivity|].
  now rewrite Hh.
Qed.

Section Steps.

Context `{Cryptography}.

Lemma encrypt_data_unfold (self : SecureStorage) (data : pyvalue) (w : World) :
  encrypt_data self data w =
    match data_to_bytes data with
    | Raise e => encrypt_handler e w
    | Ok data_bytes =>
        let salt := draw w (cursor w) SALT_LENGTH in
        let nonce := draw w (cursor w + SALT_LENGTH) NONCE_LENGTH in
        let w2 := after_draws w in
        match environ w !! key_env_var self with
        | None => encrypt_handler (Exn KeyError (str_repr (key_env_var self)) None) w2
        | Some secret =>
            match str_encode secret with
            | Raise e => encrypt_handler e w2
            | Ok master_key =>
                let key := derived_key salt master_key in
                let w4 := add_event (EvEncrypt nonce) (add_event (EvDerive salt) w2) in
                match data_bytes with
                | PyBytes pt =>
                    match AESGCM_encrypt key nonce pt [] with
                    | Ok ct => (Ok (envelope ct salt nonce), w4)
                    | Raise e => encrypt_handler e w4
                    end
                | _ =>
                    encrypt_handler
                      (Exn TypeError (lit "data must be bytes-like") None) w4
                end
            end
        end
    end.
Proof.
  unfold encrypt_data, try_except.
  change (fun e => if isinstance e Exception then Some _ else None)
    with (fun e => if isinstance e Exception then Some (encrypt_handler e) else None).
  cbv [mbind M_bind lift].
  destruct (data_to_bytes data) as [data_bytes|e];
    [|now rewrite isinstance_Exception].
  cbv [secrets_token_bytes _derive_key os_environ_getitem mbind M_bind lift].
  cbn [environ add_event set_cursor cursor entropy].
  destruct (environ w !! key_env_var self) as [secret|];
    [|rewrite isinstance_Exception; reflexivity].
  destruct (str_encode secret) as [master_key|e];
    [|rewrite isinstance_Exception; reflexivity].
  cbv [kdf_derive aesgcm_encrypt emit mbind M_bind mret M_ret lift raise].
  cbv zeta.
  destruct data_bytes; try (rewrite isinstance_Exception; reflexivity).
  cbn [default]. cbv [derived_key draw].
  match goal with |- context [AESGCM_encrypt ?k ?n ?p ?a] =>
    destruct (AESGCM_encrypt k n p a) as [ct|e] eqn:E end.
  - rewrite !bytes_decode_b64encode. reflexivity.
  - rewrite isinstance_Exception. reflexivity.
Qed.

Lemma decrypt_data_unfold (self : SecureStorage) (enc : pyvalue) (w : World) :
  decrypt_data self enc w =
    match envelope_fields enc with
    | Raise e => decrypt_handler e w
    | Ok (ct, salt, nonce) =>
        match environ w !! key_env_var self with
        | None => decrypt_handler (Exn KeyError (str_repr (key_env_var self)) None) w
        | Some secret =>
            match str_encode secret with
            | Raise e => decrypt_handler e w
            | Ok master_key =>
                let w2 := add_event (EvDecrypt nonce) (add_event (EvDerive salt) w) in
                match AESGCM_decrypt (derived_key salt master_key) nonce ct [] with
                | Ok pt => (Ok (three_way pt), w2)
                | Raise e => decrypt_handler e w2
                end
            end
        end
    end.
Proof.
  unfold decrypt_data.
  rewrite (try_except_all _ _ decrypt_handler).
  2:{ intros e. unfold decrypt_handler. rewrite isinstance_Exception.
      now destruct (isinstance e InvalidTag). }
  unfold envelope_fields.
  destruct (getitem enc (lit "ciphertext") ≫= b64decode) as [ct|e];
    [|reflexivity].
  destruct (getitem enc (lit "salt") ≫= b64decode) as [salt|e];
    [|reflexivity].
  destruct (getitem enc (lit "nonce") ≫= b64decode) as [nonce|e];
    [|reflexivity].
  cbv [mbind M_bind lift]. cbn [result_bind mret result_ret].
  cbv [_derive_key os_environ_getitem mbind M_bind lift].
  destruct (environ w !! key_env_var self) as [secret|]; [|reflexivity].
  destruct (str_encode secret) as [master_key|e]; [|reflexivity].
  cbv [kdf_derive aesgcm_decrypt emit mbind M_bind mret M_ret lift].
  cbn [default]. cbv [derived_key]. cbv zeta.
  match goal with |- context [AESGCM_decrypt ?k ?n ?p ?a] =>
    destruct (AESGCM_decrypt k n p a) as [pt|e] end.
  - now rewrite interpret_plaintext_three_way.
  - reflexivity.
Qed.

End Steps.



Lemma draw_length (w : World) (pos n : nat) : length (draw w pos n) = n.
Proof. unfold draw. now rewrite length_map, length_seq. Qed.

Lemma envelope_fields_envelope (ct salt nonce : bytes) :
  envelope_fields (envelope ct salt nonce) = Ok (ct, salt, nonce).
Proof.
  unfold envelope_fields, envelope.
  change (getitem _ (lit "ciphertext")) with (Ok (PyStr (b64text ct))).
  change (getitem _ (lit "salt")) with (Ok (PyStr (b64text salt))).
  change (getitem _ (lit "nonce")) with (Ok (PyStr (b64text nonce))).
  cbn [mbind result_bind]. now rewrite !b64decode_b64text.
Qed.

Lemma encrypt_handler_raises (e : exn) (w : World) :
  exists e' w', encrypt_handler e w = (Raise e', w').
Proof. eexists _, _. reflexivity. Qed.

Lemma decrypt_handler_raises (e : exn) (w : World) :
  exists w',
    decrypt_handler e w =
      (Raise (Exn NameError (lit "name 'DecryptionError' is not defined") (Some e)),
       w').
Proof.
  unfold decrypt_handler. destruct (isinstance e InvalidTag); eexists; reflexivity.
Qed.

Section Storage.

Context `{Cryptography}.

Lemma store_encrypted_unfold (self : SecureStorage) (data : pyvalue)
    (path : pystr) (w : World) :
  store_encrypted self data path w =
    match encrypt_data self data w with
    | (Raise e, w1) => store_handler e w1
    | (Ok enc, w1) =>
        if writable w1 path then
          match json_dumps enc with
          | Ok text => (Ok tt, set_files (<[path := text]> (files w1)) w1)
          | Raise e => store_handler e (set_files (<[path := []]> (files w1)) w1)
          end
        else
          store_handler
            (Exn OSError (lit "cannot open for writing: " ++ str_repr path) None)
            w1
    end.
Proof.
  unfold store_encrypted.
  rewrite (try_except_all _ _ store_handler)
    by (intros e; now rewrite isinstance_Exception).
  cbv [mbind M_bind]. destruct (encrypt_data self data w) as [[enc|e] w1];
    [|reflexivity].
  unfold file_open_w. destruct (writable w1 path); [|reflexivity].
  cbv [lift]. destruct (json_dumps enc) as [text|e]; [|reflexivity].
  unfold file_write. cbn [files set_files].
  rewrite lookup_insert_eq, insert_insert_eq. reflexivity.
Qed.

Lemma load_encrypted_unfold (self : SecureStorage) (path : pystr) (w : World) :
  load_encrypted self path w =
    match files w !! path with
    | None => load_handler (file_not_found path) w
    | Some text =>
        match json_loads text with
        | Raise e => load_handler e w
        | Ok enc =>
            match decrypt_data self enc w with
            | (Ok v, w') => (Ok v, w')
            | (Raise e, w') => load_handler e w'
            end
        end
    end.
Proof.
  unfold load_encrypted.
  rewrite (try_except_all _ _ load_handler)
    by (intros e; now rewrite isinstance_Exception).
  cbv [mbind M_bind file_read lift].
  destruct (files w !! path) as [text|]; [|reflexivity].
  destruct (json_loads text) as [enc|e]; [|reflexivity].
  now destruct (decrypt_data self enc w) as [[v|e] w'].
Qed.

End Storage.

(** * The claims *)

Section Claims.

Context `{Cryptography}.

(** What the proofs assume of the package: the derived key has the length
    asked for; encryption under a 32-octet key and a 12-octet nonce accepts
    up to 2^31 - 1 octets; a ciphertext is 16 octets longer than its
    plaintext; decryption undoes encryption. *)
Hypothesis kdf_length :
  forall alg n salt it km, length (PBKDF2HMAC_derive alg n salt it km) = n.
Hypothesis encrypt_ok :
  forall key nonce data,
    length key = KEY_LENGTH -> length nonce = NONCE_LENGTH ->
    N.of_nat (length data) <= 2147483647 ->
    exists ct, AESGCM_encrypt key nonce data [] = Ok ct.
Hypothesis encrypt_length :
  forall key nonce data aad ct,
    AESGCM_encrypt key nonce data aad = Ok ct ->
    length ct = (length data + 16)%nat.
Hypothesis decrypt_encrypt :
  forall key nonce data aad ct,
    AESGCM_encrypt key nonce data aad = Ok ct ->
    AESGCM_decrypt key nonce ct aad = Ok data.







(** C4.  Constructing the storage when the variable is absent or empty
    raises the configuration error of the module, the builtin
    [EnvironmentError] (an alias of [OSError]), and leaves the world as it
    was: nothing was drawn, derived, encrypted or decrypted. *)
Theorem init_without_secret (name : pystr) (w : World) :
  environ w !! name = None \/ environ w !! name = Some ([] : pystr) ->
  __init__ name w =
    (Raise (Exn OSError
              (lit "Encryption key not found in environment variable: " ++ name)
              None), w).
Proof.
  intros E. unfold __init__, _validate_environment, os_getenv.
  cbv [mbind M_bind]. change (key_env_var {| key_env_var := name |}) with name.
  destruct E as [E|E]; rewrite E; reflexivity.
Qed.

Lemma draw_ext (w w' : World) (pos n : nat) :
  (forall i, entropy w i = entropy w' i) -> draw w pos n = draw w' pos n.
Proof. intros E. unfold draw. apply map_ext. intros i. apply E. Qed.

(** C5 (as amended).  A storage object holds the name of the variable, not
    the secret: every encryption and decryption reads the secret from the
    environment when it is called.  Two calls in worlds that agree on the
    value of the variable at the time of the call (and, for encryption, on
    the random source) have the same result, whatever the value was when
    the object was constructed. *)
Theorem calls_read_current_secret (name : pystr) (self : SecureStorage)
    (w0 w0' w w' : World) (data : pyvalue) :
  __init__ name w0 = (Ok self, w0') ->
  environ w !! key_env_var self = environ w' !! key_env_var self ->
  (forall i, entropy w i = entropy w' i) ->
  cursor w = cursor w' ->
  fst (encrypt_data self data w) = fst (encrypt_data self data w')
  /\ fst (decrypt_data self data w) = fst (decrypt_data self data w').
Proof.
  intros _ Henv Hent Hcur. split.
  - rewrite !encrypt_data_unfold. cbv zeta. rewrite <- Henv, <- Hcur.
    rewrite <- !(draw_ext w w' _ _ Hent).
    destruct (data_to_bytes data) as [db|e]; [|reflexivity].
    destruct (environ w !! key_env_var self) as [secret|]; [|reflexivity].
    destruct (str_encode secret) as [mk|e]; [|reflexivity].
    destruct db; try reflexivity.
    now destruct (AESGCM_encrypt _ _ _ _).
  - rewrite !decrypt_data_unfold. cbv zeta. rewrite <- Henv.
    destruct (envelope_fields data) as [[[ct salt] nonce]|e].
    2:{ destruct (decrypt_handler_raises e w) as [w1 ->].
        now destruct (decrypt_handler_raises e w') as [w1' ->]. }
    destruct (environ w !! key_env_var self) as [secret|].
    2:{ match goal with |- context [decrypt_handler ?x] =>
          destruct (decrypt_handler_raises x w) as [w1 ->];
          now destruct (decrypt_handler_raises x w') as [w1' ->] end. }
    destruct (str_encode secret) as [mk|e].
    2:{ destruct (decrypt_handler_raises e w) as [w1 ->].
        now destruct (decrypt_handler_raises e w') as [w1' ->]. }
    destruct (AESGCM_decrypt _ _ _ _) as [pt|e]; [reflexivity|].
    match goal with |- fst (decrypt_handler _ ?a) = fst (decrypt_handler _ ?b) =>
      destruct (decrypt_handler_raises e a) as [w1 ->];
      now destruct (decrypt_handler_raises e b) as [w1' ->] end.
Qed.


(** What [encrypt_data] did when it returned. *)
Lemma encrypt_data_inversion (self : SecureStorage) (data enc : pyvalue)
    (w w' : World) :
  encrypt_data self data w = (Ok enc, w') ->
  exists (secret : pystr) (master_key pt ct : bytes),
    let salt := draw w (cursor w) SALT_LENGTH in
    let nonce := draw w (cursor w + SALT_LENGTH) NONCE_LENGTH in
    environ w !! key_env_var self = Some secret
    /\ str_encode secret = Ok master_key
    /\ data_to_bytes data = Ok (PyBytes pt)
    /\ AESGCM_encrypt (derived_key salt master_key) nonce pt [] = Ok ct
    /\ enc = envelope ct salt nonce
    /\ w' = after_encrypt salt nonce w.
Proof.
  intros He. rewrite encrypt_data_unfold in He. cbv zeta in He.
  assert (Hh : forall e w0, encrypt_handler e w0 <> (Ok enc, w')).
  { intros e w0 E. destruct (encrypt_handler_raises e w0) as (? & ? & E').
    rewrite E' in E. discriminate. }
  destruct (data_to_bytes data) as [db|e] eqn:Hdb; [|now apply Hh in He].
  destruct (environ w !! key_env_var self) as [secret|] eqn:Henv;
    [|now apply Hh in He].
  destruct (str_encode secret) as [mk|e] eqn:Hs; [|now apply Hh in He].
  destruct db as [| | | | |pt| |]; try now apply Hh in He.
  destruct (AESGCM_encrypt _ _ pt []) as [ct|e] eqn:Hct; [|now apply Hh in He].
  inversion He; subst. clear He Hh.
  exists secret, mk, pt, ct. cbv zeta.
  repeat split; first [eassumption | reflexivity].
Qed.

(** The text of a field is the text of no other octets. *)
Lemma b64text_inj (a b : bytes) : b64text a = b64text b -> a = b.
Proof.
  intros E. pose proof (b64decode_b64text a) as Ha. rewrite E in Ha.
  rewrite b64decode_b64text in Ha. now inversion Ha.
Qed.

Lemma envelope_salt_inj (c1 s1 n1 c2 s2 n2 : bytes) :
  getitem (envelope c1 s1 n1) (lit "salt") = getitem (envelope c2 s2 n2) (lit "salt") ->
  s1 = s2.
Proof.
  change (getitem (envelope c1 s1 n1) (lit "salt")) with (Ok (PyStr (b64text s1))).
  change (getitem (envelope c2 s2 n2) (lit "salt")) with (Ok (PyStr (b64text s2))).
  intros E. injection E as E. now apply b64text_inj.
Qed.

Lemma envelope_nonce_inj (c1 s1 n1 c2 s2 n2 : bytes) :
  getitem (envelope c1 s1 n1) (lit "nonce") = getitem (envelope c2 s2 n2) (lit "nonce") ->
  n1 = n2.
Proof.
  change (getitem (envelope c1 s1 n1) (lit "nonce")) with (Ok (PyStr (b64text n1))).
  change (getitem (envelope c2 s2 n2) (lit "nonce")) with (Ok (PyStr (b64text n2))).
  intros E. injection E as E. now apply b64text_inj.
Qed.

(** Two encryptions in a row read stretches of the random source that do not
    overlap, the second 28 octets after the first; where the source differs
    on them, so do the salts and the nonces of the two envelopes. *)
Lemma encryptions_draw_afresh (self : SecureStorage) (data data' enc1 enc2 : pyvalue)
    (w w1 w2 : World) :
  encrypt_data self data w = (Ok enc1, w1) ->
  encrypt_data self data' w1 = (Ok enc2, w2) ->
  cursor w1 = (cursor w + 28)%nat
  /\ (draw w (cursor w) 16 <> draw w (cursor w + 28) 16 ->
      getitem enc1 (lit "salt") <> getitem enc2 (lit "salt"))
  /\ (draw w (cursor w + 16) 12 <> draw w (cursor w + 28 + 16) 12 ->
      getitem enc1 (lit "nonce") <> getitem enc2 (lit "nonce")).
Proof.
  intros H1 H2.
  apply encrypt_data_inversion in H1 as (s1 & m1 & p1 & c1 & _ & _ & _ & _ & -> & ->).
  apply encrypt_data_inversion in H2 as (s2 & m2 & p2 & c2 & _ & _ & _ & _ & -> & _).
  cbn [cursor after_encrypt after_draws add_event set_cursor entropy].
  unfold SALT_LENGTH, NONCE_LENGTH.
  replace (cursor w + 16 + 12)%nat with (cursor w + 28)%nat by lia.
  split; [reflexivity|].
  split; intros Hne E; apply Hne.
  - apply envelope_salt_inj in E. exact E.
  - apply envelope_nonce_inj in E. exact E.
Qed.

(** C8.  Every envelope that [encrypt_data] returns has a salt that
    decodes to the 16 octets drawn first and a nonce that decodes to the 12
    octets drawn next; its ciphertext decodes to the output of AES-GCM,
    without associated data, on the plaintext of the payload under the key
    that PBKDF2-HMAC-SHA256 derives in 100000 iterations from the secret
    and the salt; the key has 32 octets and the ciphertext 16 more than
    the plaintext. *)
Theorem envelope_format (self : SecureStorage) (data enc : pyvalue)
    (w w' : World) :
  encrypt_data self data w = (Ok enc, w') ->
  exists (secret : pystr) (master_key pt ct : bytes),
    let salt := draw w (cursor w) 16 in
    let nonce := draw w (cursor w + 16) 12 in
    let key := PBKDF2HMAC_derive SHA256 32 salt 100000 master_key in
    environ w !! key_env_var self = Some secret
    /\ str_encode secret = Ok master_key
    /\ data_to_bytes data = Ok (PyBytes pt)
    /\ length key = 32%nat
    /\ AESGCM_encrypt key nonce pt [] = Ok ct
    /\ length ct = (length pt + 16)%nat
    /\ (getitem enc (lit "salt") ≫= b64decode) = Ok salt
    /\ length salt = 16%nat
    /\ (getitem enc (lit "nonce") ≫= b64decode) = Ok nonce
    /\ length nonce = 12%nat
    /\ (getitem enc (lit "ciphertext") ≫= b64decode) = Ok ct.
Proof.
  intros He.
  apply encrypt_data_inversion in He
    as (secret & mk & pt & ct & Henv & Hs & Hdb & Hct & -> & _).
  exists secret, mk, pt, ct. cbv zeta.
  pose proof (envelope_fields_envelope ct (draw w (cursor w) SALT_LENGTH)
                (draw w (cursor w + SALT_LENGTH) NONCE_LENGTH)) as Hf.
  unfold envelope_fields in Hf.
  destruct (getitem _ (lit "ciphertext") ≫= b64decode) as [c|]; [|discriminate].
  destruct (getitem _ (lit "salt") ≫= b64decode) as [s|]; [|discriminate].
  destruct (getitem _ (lit "nonce") ≫= b64decode) as [n|]; [|discriminate].
  inversion Hf; subst.
  repeat split;
    first [ eassumption | apply kdf_length | apply draw_length
          | exact (encrypt_length _ _ _ _ _ Hct) | reflexivity ].
Qed.


(** Every failure of [decrypt_data] is the [NameError] of its [raise]
    statements: [DecryptionError] is not bound in the module. *)
Lemma decrypt_data_failure (self : SecureStorage) (enc : pyvalue) (w w' : World)
    (e : exn) :
  decrypt_data self enc w = (Raise e, w') ->
  exists cause,
    e = Exn NameError (lit "name 'DecryptionError' is not defined") (Some cause).
Proof.
  rewrite decrypt_data_unfold. cbv zeta.
  destruct (envelope_fields enc) as [[[ct salt] nonce]|e0].
  2:{ destruct (decrypt_handler_raises e0 w) as [w1 ->].
      intros E; inversion E; eauto. }
  destruct (environ w !! key_env_var self) as [secret|].
  2:{ match goal with |- decrypt_handler ?x ?y = _ -> _ =>
        destruct (decrypt_handler_raises x y) as [w1 ->] end.
      intros E; inversion E; eauto. }
  destruct (str_encode secret) as [mk|e0].
  2:{ destruct (decrypt_handler_raises e0 w) as [w1 ->].
      intros E; inversion E; eauto. }
  destruct (AESGCM_decrypt _ _ _ _) as [pt|e0]; [discriminate|].
  match goal with |- decrypt_handler ?x ?y = _ -> _ =>
    destruct (decrypt_handler_raises x y) as [w1 ->] end.
  intros E; inversion E; eauto.
Qed.

(** C10 (the code does not do this).  [decrypt_data] of the empty dict
    fails on the missing key, and the [except] clause that names
    [DecryptionError] raises [NameError], which is no [StorageError]:
    [DecryptionError], a subclass of [StorageError] in [exceptions.py], is
    never imported by [secure_storage.py]. *)
Theorem decrypt_data_raises_NameError (self : SecureStorage) (w : World) :
  decrypt_data self (PyDict []) w =
    (Raise (Exn NameError (lit "name 'DecryptionError' is not defined")
              (Some (Exn KeyError (str_repr (lit "ciphertext")) None))),
     add_event (EvLogError (lit "Decryption failed: 'ciphertext'")) w)
  /\ issubclass NameError StorageError = false
  /\ issubclass NameError DecryptionError = false
  /\ issubclass DecryptionError StorageError = true.
Proof.
  split; [|repeat split; reflexivity].
  rewrite decrypt_data_unfold. reflexivity.
Qed.

End Claims.

(** ** The claims on concrete inputs *)

(** A hypothesis that holds by evaluation. *)
Local Notation "'by_evaluation'" := (ltac:(vm_compute; reflexivity)) (only parsing).







(** C4 on a variable that is not set. *)
Lemma init_without_secret_witness :
  __init__ (lit "MISSING") example_world =
    (Raise (Exn OSError
              (lit "Encryption key not found in environment variable: "
               ++ lit "MISSING") None), example_world).
Proof.
  apply (init_without_secret (lit "MISSING") example_world).
  left. vm_compute. reflexivity.
Defined.

(** C5 on two worlds that differ in their files only. *)
Lemma calls_read_current_secret_witness :
  fst (@encrypt_data Toy.crypto example_storage (PyStr (lit "hello")) example_world)
  = fst (@encrypt_data Toy.crypto example_storage (PyStr (lit "hello"))
           tampered_world).
Proof.
  apply (@calls_read_current_secret Toy.crypto DEFAULT_KEY_ENV_VAR example_storage
           example_world example_world example_world tampered_world
           (PyStr (lit "hello"))).
  - vm_compute. reflexivity.
  - vm_compute. reflexivity.
  - intros i. reflexivity.
  - reflexivity.
Defined.

(** C5 fails: the object constructed while the variable was set encrypts,
    and after the variable is removed the same call fails; after the
    variable is changed, the envelope made before is no longer decrypted. *)
Lemma secret_change_counterexample :
  exists self w1 enc w2,
    __init__ DEFAULT_KEY_ENV_VAR example_world = (Ok self, w1)
    /\ @encrypt_data Toy.crypto self (PyStr (lit "hello")) w1 = (Ok enc, w2)
    /\ is_ok (fst (@encrypt_data Toy.crypto self (PyStr (lit "hello"))
                     (set_environ ∅ w1))) = false
    /\ is_ok (fst (@decrypt_data Toy.crypto self enc w2)) = true
    /\ is_ok (fst (@decrypt_data Toy.crypto self enc
                     (set_environ {[ DEFAULT_KEY_ENV_VAR := lit "another secret" ]}
                        w2))) = false.
Proof.
  eexists _, _, _, _. split; [vm_compute; reflexivity|].
  split; [vm_compute; reflexivity|].
  repeat split; vm_compute; reflexivity.
Qed.


(** C8 on the envelope of [balance]. *)
Lemma envelope_format_witness :
  exists ct,
    (getitem (envelope balance_ciphertext example_salt example_nonce)
       (lit "ciphertext") ≫= b64decode) = Ok ct
    /\ length ct = (length balance_plaintext + 16)%nat.
Proof.
  destruct (@envelope_format Toy.crypto toy_kdf_length toy_encrypt_length
              example_storage balance
              (envelope balance_ciphertext example_salt example_nonce)
              example_world (after_encrypt example_salt example_nonce example_world)
              by_evaluation)
    as (secret & mk & pt & ct & Hw).
  cbv zeta in Hw.
  destruct Hw as (_ & _ & Hpt & _ & _ & Hlen & _ & _ & _ & _ & Hct).
  exists ct. split.
  - exact Hct.
  - assert (E : pt = balance_plaintext)
      by (vm_compute in Hpt; inversion Hpt; vm_compute; reflexivity).
    rewrite <- E. exact Hlen.
Defined.



(** * Further properties *)

(** ** What the handlers do *)

Lemma encrypt_handler_world (e : exn) (w : World) :
  exists e',
    encrypt_handler e w =
      (Raise e', add_event (EvLogError (lit "Encryption failed: " ++ exc_str e)) w)
    /\ exc_cls e' = NameError /\ exc_context e' = Some e.
Proof.
  eexists. unfold encrypt_handler. cbv [mbind M_bind logger_error emit].
  cbv [raise_named]. cbn. split; [reflexivity|]. split; reflexivity.
Qed.

Lemma decrypt_handler_world (e : exn) (w : World) :
  exists e' m,
    decrypt_handler e w = (Raise e', add_event (EvLogError m) w)
    /\ exc_cls e' = NameError /\ exc_context e' = Some e.
Proof.
  unfold decrypt_handler. destruct (isinstance e InvalidTag);
    eexists; eexists; cbv [mbind M_bind logger_error emit raise_named]; cbn;
    (split; [reflexivity|]); split; reflexivity.
Qed.

Lemma store_handler_world (e : exn) (w : World) :
  exists e',
    store_handler e w = (Raise e', w)
    /\ exc_cls e' = NameError /\ exc_context e' = Some e.
Proof.
  eexists. unfold store_handler. cbv [raise_named]. cbn.
  split; [reflexivity|]. split; reflexivity.
Qed.

Lemma load_handler_world (e : exn) (w : World) :
  exists e',
    load_handler e w = (Raise e', w)
    /\ exc_cls e' = NameError /\ exc_context e' = Some e.
Proof.
  eexists. unfold load_handler. cbv [raise_named]. cbn.
  split; [reflexivity|]. split; reflexivity.
Qed.


Section Further.

Context `{Cryptography}.

Lemma same_outside_refl (w : World) : same_outside w w.
Proof. now repeat split. Qed.

Lemma same_outside_add_event (ev : event) (w w' : World) :
  same_outside w w' -> same_outside w (add_event ev w').
Proof. intros (?&?&?&?&?). now repeat split. Qed.

(** Decryption reads the world and writes a log. *)
Lemma decrypt_data_frame (self : SecureStorage) (enc : pyvalue)
    (w : World) :
  same_outside w (snd (decrypt_data self enc w))
  /\ exists evs, trace (snd (decrypt_data self enc w)) = trace w ++ evs.
Proof.
  rewrite decrypt_data_unfold.
  assert (Hh : forall e w', same_outside w w' ->
            (exists evs, trace w' = trace w ++ evs) ->
            same_outside w (snd (decrypt_handler e w'))
            /\ exists evs, trace (snd (decrypt_handler e w')) = trace w ++ evs).
  { intros e w' Hs [evs Ht].
    destruct (decrypt_handler_world e w') as (e' & m & -> & _).
    cbn [snd]. split; [now apply same_outside_add_event|].
    exists (evs ++ [EvLogError m]). cbn. rewrite Ht. now rewrite app_assoc. }
  assert (H0 : exists evs, trace w = trace w ++ evs) by (exists []; now rewrite app_nil_r).
  destruct (envelope_fields enc) as [[[ct salt] nonce]|e];
    [|apply Hh; [apply same_outside_refl|exact H0]].
  destruct (environ w !! key_env_var self) as [secret|];
    [|apply Hh; [apply same_outside_refl|exact H0]].
  destruct (str_encode secret) as [mk|e];
    [|apply Hh; [apply same_outside_refl|exact H0]].
  cbv zeta.
  assert (H2 : exists evs,
             trace (add_event (EvDecrypt nonce) (add_event (EvDerive salt) w))
             = trace w ++ evs).
  { exists [EvDerive salt; EvDecrypt nonce]. cbn. now rewrite <- app_assoc. }
  destruct (AESGCM_decrypt _ _ _ _) as [pt|e].
  - cbn [snd]. split; [|exact H2].
    now apply same_outside_add_event, same_outside_add_event, same_outside_refl.
  - apply Hh; [|exact H2].
    now apply same_outside_add_event, same_outside_add_event, same_outside_refl.
Qed.

Lemma load_encrypted_frame (self : SecureStorage) (path : pystr)
    (w : World) :
  same_outside w (snd (load_encrypted self path w))
  /\ exists evs, trace (snd (load_encrypted self path w)) = trace w ++ evs.
Proof.
  rewrite load_encrypted_unfold.
  assert (H0 : exists evs, trace w = trace w ++ evs) by (exists []; now rewrite app_nil_r).
  destruct (files w !! path) as [text|].
  2:{ destruct (load_handler_world (file_not_found path) w) as (e' & -> & _).
      split; [apply same_outside_refl|exact H0]. }
  destruct (json_loads text) as [enc|e].
  2:{ destruct (load_handler_world e w) as (e' & -> & _).
      split; [apply same_outside_refl|exact H0]. }
  pose proof (decrypt_data_frame self enc w) as [Hs Ht].
  destruct (decrypt_data self enc w) as [[v|e] w']; cbn [snd] in *.
  - now split.
  - destruct (load_handler_world e w') as (e' & -> & _). now split.
Qed.

(** Every result of [encrypt_data] that is not an exception is an envelope,
    made after two draws. *)
Lemma encrypt_data_cases (self : SecureStorage) (data : pyvalue) (w : World) :
  (exists ct,
     encrypt_data self data w =
       (Ok (envelope ct (draw w (cursor w) SALT_LENGTH)
              (draw w (cursor w + SALT_LENGTH) NONCE_LENGTH)),
        after_encrypt (draw w (cursor w) SALT_LENGTH)
          (draw w (cursor w + SALT_LENGTH) NONCE_LENGTH) w))
  \/ (exists e w',
        encrypt_data self data w = (Raise e, w')
        /\ exc_cls e = NameError
        /\ (exists cause, exc_context e = Some cause)
        /\ environ w' = environ w /\ files w' = files w
        /\ writable w' = writable w /\ entropy w' = entropy w
        /\ (cursor w' = cursor w \/ cursor w' = (cursor w + 28)%nat)).
Proof.
  rewrite encrypt_data_unfold.
  assert (Hh : forall e w',
            environ w' = environ w -> files w' = files w ->
            writable w' = writable w -> entropy w' = entropy w ->
            (cursor w' = cursor w \/ cursor w' = (cursor w + 28)%nat) ->
            exists e1 w1,
              encrypt_handler e w' = (Raise e1, w1)
              /\ exc_cls e1 = NameError
              /\ (exists cause, exc_context e1 = Some cause)
              /\ environ w1 = environ w /\ files w1 = files w
              /\ writable w1 = writable w /\ entropy w1 = entropy w
              /\ (cursor w1 = cursor w \/ cursor w1 = (cursor w + 28)%nat)).
  { intros e w' ? ? ? ? ?.
    destruct (encrypt_handler_world e w') as (e' & -> & Hc & Hx).
    exists e', (add_event (EvLogError (lit "Encryption failed: " ++ exc_str e)) w').
    split; [reflexivity|]. split; [exact Hc|]. split; [now exists e|].
    now repeat split. }
  assert (Hc2 : cursor (after_draws w) = (cursor w + 28)%nat).
  { cbn. unfold SALT_LENGTH, NONCE_LENGTH. lia. }
  destruct (data_to_bytes data) as [db|e];
    [|right; apply Hh; auto].
  cbv zeta.
  destruct (environ w !! key_env_var self) as [secret|];
    [|right; apply Hh; auto].
  destruct (str_encode secret) as [mk|e]; [|right; apply Hh; auto].
  destruct db; try (right; apply Hh; auto).
  destruct (AESGCM_encrypt _ _ _ _) as [ct|e]; [|right; apply Hh; auto].
  left. exists ct. reflexivity.
Qed.

(** Storing writes the text of an envelope at the path, or nothing. *)
Lemma store_encrypted_cases (self : SecureStorage) (data : pyvalue)
    (path : pystr) (w : World) :
  (exists (ct salt nonce : bytes) (w' : World),
     store_encrypted self data path w = (Ok tt, w')
     /\ files w' = <[path := envelope_text ct salt nonce]> (files w)
     /\ environ w' = environ w)
  \/ (exists (e : exn) (w' : World),
        store_encrypted self data path w = (Raise e, w')
        /\ files w' = files w /\ environ w' = environ w).
Proof.
  rewrite store_encrypted_unfold.
  destruct (encrypt_data_cases self data w)
    as [[ct ->]|(e & w1 & -> & _ & _ & He & Hf & _)].
  - set (salt := draw w (cursor w) SALT_LENGTH).
    set (nonce := draw w (cursor w + SALT_LENGTH) NONCE_LENGTH).
    rewrite json_dumps_envelope.
    destruct (writable (after_encrypt salt nonce w) path).
    + left. exists ct, salt, nonce. eexists. split; [reflexivity|].
      split; reflexivity.
    + right.
      destruct (store_handler_world
                  (Exn OSError (lit "cannot open for writing: " ++ str_repr path) None)
                  (after_encrypt salt nonce w)) as (e' & -> & _).
      exists e'. eexists. split; [reflexivity|]. split; reflexivity.
  - right. destruct (store_handler_world e w1) as (e' & -> & _).
    exists e', w1. now split.
Qed.




(** X17.  [store_encrypted] either returns, and then the file at the path
    holds the JSON text of an envelope that [json.loads] reads back, or it
    raises, and then no file has changed. *)
Theorem store_encrypted_all_or_nothing (self : SecureStorage) (data : pyvalue)
    (path : pystr) (w : World) :
  (exists (ct salt nonce : bytes) (w' : World),
     store_encrypted self data path w = (Ok tt, w')
     /\ files w' = <[path := envelope_text ct salt nonce]> (files w)
     /\ json_loads (envelope_text ct salt nonce) = Ok (envelope ct salt nonce))
  \/ (exists (e : exn) (w' : World),
        store_encrypted self data path w = (Raise e, w')
        /\ files w' = files w).
Proof.
  destruct (store_encrypted_cases self data path w)
    as [(ct & salt & nonce & w' & E & Hf & _)|(e & w' & E & Hf & _)].
  - left. exists ct, salt, nonce, w'. split; [exact E|]. split; [exact Hf|].
    apply json_loads_envelope.
  - right. exists e, w'. now split.
Qed.

(** X19.  [decrypt_data] and [load_encrypted] leave the environment, the
    files and the random source as they were. *)
Theorem reading_changes_nothing (self : SecureStorage) (enc : pyvalue)
    (path : pystr) (w : World) :
  same_outside w (snd (decrypt_data self enc w))
  /\ same_outside w (snd (load_encrypted self path w)).
Proof.
  split; [apply decrypt_data_frame|apply load_encrypted_frame].
Qed.

(** X9.  Whatever [encrypt_data], [decrypt_data], [store_encrypted] or
    [load_encrypted] raises is a [NameError] with the failure that caused
    it as context, and so no [StorageError]: none of the three classes the
    [raise] statements name is bound in the module. *)
Theorem failures_are_NameError (self : SecureStorage) (data enc : pyvalue)
    (path : pystr) (w w' : World) (e : exn) :
  encrypt_data self data w = (Raise e, w')
  \/ decrypt_data self enc w = (Raise e, w')
  \/ store_encrypted self data path w = (Raise e, w')
  \/ load_encrypted self path w = (Raise e, w') ->
  exc_cls e = NameError
  /\ isinstance e StorageError = false
  /\ exists cause, exc_context e = Some cause.
Proof.
  intros Hr.
  assert (Hn : exc_cls e = NameError /\ exists cause, exc_context e = Some cause).
  { destruct Hr as [Hr|[Hr|[Hr|Hr]]].
    - destruct (encrypt_data_cases self data w)
        as [[ct E]|(e1 & w1 & E & Hc & Hx & _)]; rewrite E in Hr; [discriminate|].
      inversion Hr; subst. now split.
    - rewrite decrypt_data_unfold in Hr.
      assert (Hh : forall x w1, decrypt_handler x w1 = (Raise e, w') ->
                exc_cls e = NameError /\ exists cause, exc_context e = Some cause).
      { intros x w1 Hx. destruct (decrypt_handler_world x w1) as (e1 & m & E & Hc & Hcx).
        rewrite E in Hx. inversion Hx; subst. split; [exact Hc|now exists x]. }
      destruct (envelope_fields enc) as [[[ct salt] nonce]|x]; [|now apply Hh in Hr].
      destruct (environ w !! key_env_var self) as [secret|]; [|now apply Hh in Hr].
      destruct (str_encode secret) as [mk|x]; [|now apply Hh in Hr].
      cbv zeta in Hr.
      destruct (AESGCM_decrypt _ _ _ _); [discriminate|now apply Hh in Hr].
    - destruct (store_encrypted_cases self data path w)
        as [(ct & salt & nonce & w1 & E & _)|(e1 & w1 & E & _)];
        [rewrite E in Hr; discriminate|].
      rewrite store_encrypted_unfold in Hr.
      assert (Hh : forall x w2, store_handler x w2 = (Raise e, w') ->
                exc_cls e = NameError /\ exists cause, exc_context e = Some cause).
      { intros x w2 Hx. destruct (store_handler_world x w2) as (e2 & E2 & Hc & Hcx).
        rewrite E2 in Hx. inversion Hx; subst. split; [exact Hc|now exists x]. }
      destruct (encrypt_data self data w) as [[v|x] w2]; [|now apply Hh in Hr].
      destruct (writable w2 path); [|now apply Hh in Hr].
      destruct (json_dumps v); [discriminate|now apply Hh in Hr].
    - rewrite load_encrypted_unfold in Hr.
      assert (Hh : forall x w2, load_handler x w2 = (Raise e, w') ->
                exc_cls e = NameError /\ exists cause, exc_context e = Some cause).
      { intros x w2 Hx. destruct (load_handler_world x w2) as (e2 & E2 & Hc & Hcx).
        rewrite E2 in Hx. inversion Hx; subst. split; [exact Hc|now exists x]. }
      destruct (files w !! path) as [text|]; [|now apply Hh in Hr].
      destruct (json_loads text) as [enc'|x]; [|now apply Hh in Hr].
      destruct (decrypt_data self enc' w) as [[v|x] w2]; [discriminate|now apply Hh in Hr]. }
  destruct Hn as [Hc Hx]. split; [exact Hc|]. split; [|exact Hx].
  unfold isinstance. now rewrite Hc.
Qed.


(** X7.  While the variable is not set, every call of [encrypt_data],
    [decrypt_data], [store_encrypted] and [load_encrypted] fails, whatever
    its arguments. *)
Theorem unset_variable_fails_every_call (self : SecureStorage)
    (data enc : pyvalue) (path : pystr) (w : World) :
  environ w !! key_env_var self = None ->
  is_ok (fst (encrypt_data self data w)) = false
  /\ is_ok (fst (decrypt_data self enc w)) = false
  /\ is_ok (fst (store_encrypted self data path w)) = false
  /\ is_ok (fst (load_encrypted self path w)) = false.
Proof.
  intros Hn.
  assert (He : is_ok (fst (encrypt_data self data w)) = false).
  { rewrite encrypt_data_unfold, Hn.
    assert (Hh : forall e w', is_ok (fst (encrypt_handler e w')) = false).
    { intros e w'. now destruct (encrypt_handler_world e w') as (e' & -> & _). }
    destruct (data_to_bytes data); [cbv zeta|]; apply Hh. }
  assert (Hd : forall enc', is_ok (fst (decrypt_data self enc' w)) = false).
  { intros enc'. rewrite decrypt_data_unfold, Hn.
    assert (Hh : forall e w', is_ok (fst (decrypt_handler e w')) = false).
    { intros e w'. now destruct (decrypt_handler_world e w') as (e' & m & -> & _). }
    destruct (envelope_fields enc') as [[[ct salt] nonce]|e]; apply Hh. }
  split; [exact He|]. split; [apply Hd|]. split.
  - rewrite store_encrypted_unfold.
    destruct (encrypt_data self data w) as [[v|x] w1]; [discriminate He|].
    now destruct (store_handler_world x w1) as (e' & -> & _).
  - rewrite load_encrypted_unfold.
    assert (Hh : forall e w', is_ok (fst (load_handler e w')) = false).
    { intros e w'. now destruct (load_handler_world e w') as (e' & -> & _). }
    destruct (files w !! path) as [text|]; [|apply Hh].
    destruct (json_loads text) as [enc'|x]; [|apply Hh].
    specialize (Hd enc').
    destruct (decrypt_data self enc' w) as [[v|x] w2]; [discriminate Hd|apply Hh].
Qed.

(** The exceptions of indexing and of base64 decoding. *)
Lemma getitem_raises (obj : pyvalue) (key : pystr) (x : exn) :
  getitem obj key = Raise x -> exc_cls x = KeyError \/ exc_cls x = TypeError.
Proof.
  unfold getitem. destruct obj; try (intros [= <-]; now right).
  destruct (dict_get key d); [discriminate|]. intros [= <-]. now left.
Qed.

Lemma a2b_base64_loop_raises (data : bytes) (quad_pos : nat) (leftchar : N)
    (pads : nat) (x : exn) :
  a2b_base64_loop data quad_pos leftchar pads = Raise x ->
  exc_cls x = binascii_Error.
Proof.
  revert quad_pos leftchar pads.
  induction data as [|c data IH]; intros q lc pd; cbn [a2b_base64_loop].
  - destruct q as [|[|q]]; [discriminate| |]; intros [= <-]; reflexivity.
  - destruct (Byte.eqb c BASE64_PAD).
    + destruct (2 <=? q)%nat; [|apply IH].
      destruct (4 <=? q + S pd)%nat; [discriminate|apply IH].
    + destruct (a2b c) as [v|]; [|apply IH].
      destruct q as [|[|[|q]]]; [apply IH| | |];
        match goal with
        | |- (_ <$> ?r) = _ -> _ =>
            destruct r eqn:E; cbn; [discriminate|];
            intros [= <-]; now apply IH in E
        end.
Qed.

Lemma b64decode_raises (s : pyvalue) (x : exn) :
  b64decode s = Raise x ->
  exc_cls x = TypeError \/ exc_cls x = ValueError \/ exc_cls x = binascii_Error.
Proof.
  unfold b64decode, bytes_from_decode_data.
  assert (Ha : forall l, (Ok l ≫= a2b_base64) = Raise x -> exc_cls x = binascii_Error).
  { intros l. cbn. unfold a2b_base64.
    destruct (a2b_base64_loop l 0 0 0) eqn:E; cbn; [discriminate|].
    intros [= <-]. now apply a2b_base64_loop_raises in E. }
  destruct s; try (intros [= <-]; now left).
  - destruct (forallb _ s); [|intros [= <-]; right; now left].
    intros Hx. right; right. now apply Ha in Hx.
  - intros Hx. right; right. now apply Ha in Hx.
Qed.

Lemma envelope_fields_raises (enc : pyvalue) (x : exn) :
  envelope_fields enc = Raise x -> isinstance x InvalidTag = false.
Proof.
  assert (Hf : forall k, (getitem enc k ≫= b64decode) = Raise x ->
            isinstance x InvalidTag = false).
  { intros k. destruct (getitem enc k) as [v|y] eqn:E; cbn.
    - intros Hb. apply b64decode_raises in Hb. unfold isinstance.
      destruct Hb as [->|[->| ->]]; reflexivity.
    - intros [= <-]. apply getitem_raises in E. unfold isinstance.
      destruct E as [->| ->]; reflexivity. }
  unfold envelope_fields.
  destruct (getitem enc (lit "ciphertext") ≫= b64decode) as [ct|y] eqn:E1;
    [|cbn; intros [= <-]; now apply Hf in E1].
  destruct (getitem enc (lit "salt") ≫= b64decode) as [salt|y] eqn:E2;
    [|cbn; intros [= <-]; now apply Hf in E2].
  destruct (getitem enc (lit "nonce") ≫= b64decode) as [nonce|y] eqn:E3;
    [|cbn; intros [= <-]; now apply Hf in E3].
  discriminate.
Qed.

(** X10.  An envelope with a field that is missing or cannot be decoded
    is refused before any key is derived: [decrypt_data] logs the failure
    and raises, and the log record is the only event. *)
Theorem malformed_envelope_fails_early (self : SecureStorage) (enc : pyvalue)
    (w : World) (e : exn) :
  envelope_fields enc = Raise e ->
  exists e',
    decrypt_data self enc w =
      (Raise e', add_event (EvLogError (lit "Decryption failed: " ++ exc_str e)) w)
    /\ exc_context e' = Some e.
Proof.
  intros Hf. rewrite decrypt_data_unfold, Hf. unfold decrypt_handler.
  rewrite (envelope_fields_raises enc e Hf).
  eexists. cbv [mbind M_bind logger_error emit raise_named]. cbn.
  split; reflexivity.
Qed.

(** X11.  [decrypt_data] reads the entries [ciphertext], [salt] and
    [nonce] and nothing else: two arguments that agree on them are
    decrypted alike. *)
Theorem only_three_entries_are_read (self : SecureStorage) (enc enc' : pyvalue)
    (w : World) :
  getitem enc (lit "ciphertext") = getitem enc' (lit "ciphertext") ->
  getitem enc (lit "salt") = getitem enc' (lit "salt") ->
  getitem enc (lit "nonce") = getitem enc' (lit "nonce") ->
  decrypt_data self enc w = decrypt_data self enc' w.
Proof.
  intros Hc Hs Hn. rewrite !decrypt_data_unfold.
  unfold envelope_fields. now rewrite Hc, Hs, Hn.
Qed.

(** X8.  Construction succeeds exactly when the variable holds a value
    that is not empty; the value is not examined further. *)
Theorem init_accepts_any_nonempty_value (name : pystr) (w : World) :
  is_ok (fst (__init__ name w)) = true
  <-> exists c s, environ w !! name = Some (c :: s).
Proof.
  unfold __init__, _validate_environment.
  cbv [mbind M_bind os_getenv mret M_ret]. cbn [key_env_var].
  destruct (environ w !! name) as [[|c s]|]; cbn.
  - split; [discriminate|]. intros (c & s & [=]).
  - split; [|reflexivity]. intros _. now exists c, s.
  - split; [discriminate|]. intros (c & s & [=]).
Qed.

(** X14.  For all octets of ciphertext, salt and nonce, the envelope has a
    JSON text, [json.loads] of the text is the envelope, and the three
    fields decode to the octets. *)
Theorem envelope_is_read_back (ct salt nonce : bytes) :
  exists text,
    json_dumps (envelope ct salt nonce) = Ok text
    /\ json_loads text = Ok (envelope ct salt nonce)
    /\ envelope_fields (envelope ct salt nonce) = Ok (ct, salt, nonce).
Proof.
  exists (envelope_text ct salt nonce).
  split; [apply json_dumps_envelope|]. split; [apply json_loads_envelope|].
  apply envelope_fields_envelope.
Qed.

(** X5.  The envelope records no type: a dict, the [str] that is its JSON
    text and the [bytes] that are the UTF-8 octets of the text are
    encrypted to the same result in the same world. *)
Theorem envelope_records_no_type (self : SecureStorage) (w : World)
    (d : list (pyvalue * pyvalue)) (text : pystr) (pt : bytes) :
  json_dumps (PyDict d) = Ok text ->
  str_encode text = Ok pt ->
  encrypt_data self (PyDict d) w = encrypt_data self (PyStr text) w
  /\ encrypt_data self (PyStr text) w = encrypt_data self (PyBytes pt) w.
Proof.
  intros Hd Hs. rewrite !encrypt_data_unfold.
  change (data_to_bytes (PyDict d))
    with (text0 ← json_dumps (PyDict d); PyBytes <$> str_encode text0).
  cbn [data_to_bytes]. rewrite Hd. cbn. rewrite Hs. cbn. split; reflexivity.
Qed.

End Further.

Section FurtherWithLaws.

Context `{Cryptography}.

Hypothesis kdf_length :
  forall alg n salt it km, length (PBKDF2HMAC_derive alg n salt it km) = n.
Hypothesis encrypt_ok :
  forall key nonce data,
    length key = KEY_LENGTH -> length nonce = NONCE_LENGTH ->
    N.of_nat (length data) <= 2147483647 ->
    exists ct, AESGCM_encrypt key nonce data [] = Ok ct.
Hypothesis encrypt_length :
  forall key nonce data aad ct,
    AESGCM_encrypt key nonce data aad = Ok ct ->
    length ct = (length data + 16)%nat.
Hypothesis decrypt_encrypt :
  forall key nonce data aad ct,
    AESGCM_encrypt key nonce data aad = Ok ct ->
    AESGCM_decrypt key nonce ct aad = Ok data.


End FurtherWithLaws.

(** ** base64 text is not canonical *)

Lemma b2a_base64_length (l : list N) :
  length (b2a_base64 l) = (4 * ((length l + 2) / 3))%nat.
Proof.
  induction l as [|a|a b|a b c l IH] using list_ind3; try reflexivity.
  cbn [b2a_base64 length]. rewrite IH.
  replace (S (S (S (length l))) + 2)%nat with ((length l + 2) + 1 * 3)%nat by lia.
  rewrite Nat.div_add by lia. lia.
Qed.

Lemma a2b_base64_loop_skip (l1 l2 : bytes) (c : byte) (quad_pos : nat)
    (leftchar : N) (pads : nat) :
  a2b c = None -> Byte.eqb c BASE64_PAD = false ->
  a2b_base64_loop (l1 ++ c :: l2) quad_pos leftchar pads
  = a2b_base64_loop (l1 ++ l2) quad_pos leftchar pads.
Proof.
  intros Ha Hp. revert quad_pos leftchar pads.
  induction l1 as [|x l1 IH]; intros q lc pd.
  - cbn [app a2b_base64_loop]. now rewrite Hp, Ha.
  - cbn [app a2b_base64_loop].
    destruct (Byte.eqb x BASE64_PAD).
    + destruct (2 <=? q)%nat; [|apply IH].
      destruct (4 <=? q + S pd)%nat; [reflexivity|apply IH].
    + destruct (a2b x) as [v|]; [|apply IH].
      destruct q as [|[|[|q]]]; now rewrite ?IH.
Qed.

Lemma b64decode_skips_noise (t1 t2 : pystr) (c : N) :
  base64_noise c = true ->
  b64decode (PyStr (t1 ++ c :: t2)) = b64decode (PyStr (t1 ++ t2)).
Proof.
  unfold base64_noise. intros Hc.
  apply andb_true_iff in Hc as [Hc Hp]. apply andb_true_iff in Hc as [Hc Ha].
  apply negb_true_iff in Hp.
  destruct (a2b (byte_of_N c)) eqn:Ea; [discriminate|].
  unfold b64decode, bytes_from_decode_data.
  rewrite !forallb_app. cbn [forallb]. rewrite Hc. cbn [andb].
  destruct (forallb _ t1 && forallb _ t2); [|reflexivity].
  cbn. unfold a2b_base64. rewrite !map_app. cbn [map].
  now rewrite a2b_base64_loop_skip.
Qed.

(** After the pad of a last, incomplete group nothing is read. *)
Lemma a2b_base64_loop_after_pad (s : bytes) (junk : bytes) :
  (length s mod 3 <> 0)%nat ->
  a2b_base64_loop (b2a_base64 (map Byte.to_N s) ++ junk) 0 0 0
  = Ok (map Byte.to_N s).
Proof.
  induction s as [|a|a b|a b c s IH] using list_ind3; intros Hl.
  - now contradiction Hl.
  - cbn [map b2a_base64 app].
    pose proof (sextet0_lt a) as H0. pose proof (sextet1_lt a x00) as H1.
    pose proof (octet0_eq a x00) as E.
    unfold sextet0, sextet1 in *. change (Byte.to_N x00) with 0 in *.
    change (N.shiftr 0 4) with 0 in *. rewrite N.lor_0_r in *.
    rewrite a2b_base64_loop_char by exact H0.
    rewrite a2b_base64_loop_char by exact H1.
    rewrite E. reflexivity.
  - cbn [map b2a_base64 app].
    pose proof (sextet0_lt a) as H0. pose proof (sextet1_lt a b) as H1.
    pose proof (sextet2_lt b x00) as H2.
    pose proof (octet0_eq a b) as E0. pose proof (octet1_high a b) as E1.
    pose proof (octet1_eq b x00) as E2.
    unfold sextet0, sextet1, sextet2 in *. change (Byte.to_N x00) with 0 in *.
    change (N.shiftr 0 6) with 0 in *. rewrite N.lor_0_r in *.
    rewrite a2b_base64_loop_char by exact H0.
    rewrite a2b_base64_loop_char by exact H1.
    rewrite a2b_base64_loop_char by exact H2.
    rewrite E0, E1, E2. reflexivity.
  - cbn [map b2a_base64 app].
    pose proof (a2b_base64_loop_quad a b c
                  (b2a_base64 (map Byte.to_N s) ++ junk) 0) as Hq.
    unfold sextet0, sextet1, sextet2, sextet3 in Hq. rewrite Hq, IH; [reflexivity|].
    cbn [length] in Hl.
    replace (S (S (S (length s)))) with (length s + 1 * 3)%nat in Hl by lia.
    now rewrite Nat.Div0.mod_add in Hl.
Qed.

Lemma b64decode_after_pad (s : bytes) (junk : pystr) :
  (length s mod 3 <> 0)%nat ->
  forallb (fun c => c <? 128) junk = true ->
  b64decode (PyStr (b64text s ++ junk)) = Ok s.
Proof.
  intros Hl Hj. unfold b64decode, bytes_from_decode_data.
  rewrite forallb_app, Hj, andb_true_r.
  replace (forallb _ (b64text s)) with true.
  - cbn. unfold a2b_base64, b64text. rewrite map_app, map_byte_of_to_N.
    unfold b64encode. rewrite a2b_base64_loop_after_pad by exact Hl.
    cbn. now rewrite map_byte_of_to_N.
  - symmetry. apply forallb_forall. intros n Hn.
    pose proof (b2a_base64_ascii (map Byte.to_N s)) as H.
    rewrite List.Forall_forall in H. apply N.ltb_lt. now apply H.
Qed.

Section Noise.

Context `{Cryptography}.

Lemma decrypt_data_envelope_of (self : SecureStorage) (w : World)
    (c s n c' s' n' : pyvalue) :
  b64decode c = b64decode c' -> b64decode s = b64decode s' ->
  b64decode n = b64decode n' ->
  decrypt_data self (envelope_of c s n) w = decrypt_data self (envelope_of c' s' n') w.
Proof.
  intros Hc Hs Hn. rewrite !decrypt_data_unfold.
  unfold envelope_fields, envelope_of.
  change (getitem (PyDict [(PyStr (lit "ciphertext"), c); (PyStr (lit "salt"), s);
                           (PyStr (lit "nonce"), n)]) (lit "ciphertext")) with (Ok c).
  change (getitem (PyDict [(PyStr (lit "ciphertext"), c); (PyStr (lit "salt"), s);
                           (PyStr (lit "nonce"), n)]) (lit "salt")) with (Ok s).
  change (getitem (PyDict [(PyStr (lit "ciphertext"), c); (PyStr (lit "salt"), s);
                           (PyStr (lit "nonce"), n)]) (lit "nonce")) with (Ok n).
  change (getitem (PyDict [(PyStr (lit "ciphertext"), c'); (PyStr (lit "salt"), s');
                           (PyStr (lit "nonce"), n')]) (lit "ciphertext")) with (Ok c').
  change (getitem (PyDict [(PyStr (lit "ciphertext"), c'); (PyStr (lit "salt"), s');
                           (PyStr (lit "nonce"), n')]) (lit "salt")) with (Ok s').
  change (getitem (PyDict [(PyStr (lit "ciphertext"), c'); (PyStr (lit "salt"), s');
                           (PyStr (lit "nonce"), n')]) (lit "nonce")) with (Ok n').
  cbn [mbind result_bind]. now rewrite Hc, Hs, Hn.
Qed.

(** X12.  [b64decode] is called without [validate]: an ASCII character
    outside the base64 alphabet, anywhere in a field, does not change what
    [decrypt_data] does. *)
Theorem noise_in_a_field_is_skipped (self : SecureStorage) (w : World)
    (t1 t2 : pystr) (c : N) (x y : pyvalue) :
  base64_noise c = true ->
  decrypt_data self (envelope_of (PyStr (t1 ++ c :: t2)) x y) w
    = decrypt_data self (envelope_of (PyStr (t1 ++ t2)) x y) w
  /\ decrypt_data self (envelope_of x (PyStr (t1 ++ c :: t2)) y) w
    = decrypt_data self (envelope_of x (PyStr (t1 ++ t2)) y) w
  /\ decrypt_data self (envelope_of x y (PyStr (t1 ++ c :: t2))) w
    = decrypt_data self (envelope_of x y (PyStr (t1 ++ t2))) w.
Proof.
  intros Hc. pose proof (b64decode_skips_noise t1 t2 c Hc) as Hb.
  repeat split; now apply decrypt_data_envelope_of.
Qed.

(** X13.  The text of a 16-octet salt ends in padding, and nothing after
    the padding is read: any ASCII text appended to the salt field of an
    envelope leaves the decryption as it was. *)
Theorem text_after_the_salt_is_ignored (self : SecureStorage) (w : World)
    (salt : bytes) (junk : pystr) (x y : pyvalue) :
  length salt = SALT_LENGTH ->
  forallb (fun c => c <? 128) junk = true ->
  decrypt_data self (envelope_of x (PyStr (b64text salt ++ junk)) y) w
  = decrypt_data self (envelope_of x (PyStr (b64text salt)) y) w.
Proof.
  intros Hl Hj. apply decrypt_data_envelope_of; try reflexivity.
  rewrite b64decode_after_pad, b64decode_b64text; [reflexivity| |exact Hj].
  rewrite Hl. vm_compute. discriminate.
Qed.

End Noise.

Lemma b64text_length (s : bytes) :
  length (b64text s) = (4 * ((length s + 2) / 3))%nat.
Proof.
  unfold b64text, b64encode. now rewrite !length_map, b2a_base64_length, length_map.
Qed.

Lemma envelope_text_length (ct salt nonce : bytes) :
  length (envelope_text ct salt nonce)
  = (length (b64text ct) + length (b64text salt) + length (b64text nonce) + 43)%nat.
Proof.
  unfold envelope_text. cbn [length].
  repeat (rewrite ?length_app; cbn [length lit]).
  change (length (lit "ciphertext")) with 10%nat.
  change (length (lit "salt")) with 4%nat.
  change (length (lit "nonce")) with 5%nat.
  change (length (lit ": ")) with 2%nat.
  change (length (lit ", ")) with 2%nat.
  lia.
Qed.

Section Sizes.

Context `{Cryptography}.

Hypothesis encrypt_length :
  forall key nonce data aad ct,
    AESGCM_encrypt key nonce data aad = Ok ct ->
    length ct = (length data + 16)%nat.

(** X15.  The sizes of what [encrypt_data] returns for a plaintext of [n]
    octets: 4 * ((n + 18) / 3) characters of ciphertext, 24 of salt and 16
    of nonce; the JSON text that [store_encrypted] writes has 83 more than
    the ciphertext field, all printable ASCII. *)
Theorem envelope_sizes (self : SecureStorage) (data enc : pyvalue) (w w' : World) :
  encrypt_data self data w = (Ok enc, w') ->
  exists (pt : bytes) (ciphertext salt nonce text : pystr),
    data_to_bytes data = Ok (PyBytes pt)
    /\ enc = envelope_of (PyStr ciphertext) (PyStr salt) (PyStr nonce)
    /\ length ciphertext = (4 * ((length pt + 18) / 3))%nat
    /\ length salt = 24%nat
    /\ length nonce = 16%nat
    /\ json_dumps enc = Ok text
    /\ length text = (4 * ((length pt + 18) / 3) + 83)%nat
    /\ forallb (fun c => (32 <=? c) && (c <=? 126)) text = true.
Proof.
  intros He.
  destruct (encrypt_data_inversion self data enc w w' He)
    as (secret & mk & pt & ct & Hw). cbv zeta in Hw.
  destruct Hw as (_ & _ & Hpt & Hct & -> & _).
  apply encrypt_length in Hct.
  set (salt := draw w (cursor w) SALT_LENGTH).
  set (nonce := draw w (cursor w + SALT_LENGTH) NONCE_LENGTH).
  assert (Hc : length (b64text ct) = (4 * ((length pt + 18) / 3))%nat).
  { rewrite b64text_length, Hct. f_equal. f_equal. lia. }
  assert (Hs : length (b64text salt) = 24%nat).
  { rewrite b64text_length. unfold salt. now rewrite draw_length. }
  assert (Hn : length (b64text nonce) = 16%nat).
  { rewrite b64text_length. unfold nonce. now rewrite draw_length. }
  exists pt, (b64text ct), (b64text salt), (b64text nonce),
    (envelope_text ct salt nonce).
  split; [exact Hpt|]. split; [reflexivity|]. split; [exact Hc|].
  split; [exact Hs|]. split; [exact Hn|]. split; [apply json_dumps_envelope|].
  split; [rewrite envelope_text_length; lia|].
  assert (Hp : forall s, forallb (fun c => (32 <=? c) && (c <=? 126)) (b64text s) = true).
  { intros s. apply forallb_forall. intros c Hin.
    pose proof (b64text_plain s) as Hb. rewrite forallb_forall in Hb.
    specialize (Hb c Hin). unfold plain_char in Hb.
    now destruct (32 <=? c), (c <=? 126). }
  unfold envelope_text.
  repeat first [rewrite forallb_app | rewrite Hp
               | progress cbn [forallb andb app lit] ].
  vm_compute. reflexivity.
Qed.

End Sizes.

(** ** JSON text of every string *)








(** ** JSON text of every [int] *)












(** ** JSON text of every value *)























(** ** The text [json.dumps] writes is ASCII *)













Section Dicts.

Context `{Cryptography}.

Hypothesis kdf_length :
  forall alg n salt it km, length (PBKDF2HMAC_derive alg n salt it km) = n.
Hypothesis encrypt_ok :
  forall key nonce data,
    length key = KEY_LENGTH -> length nonce = NONCE_LENGTH ->
    N.of_nat (length data) <= 2147483647 ->
    exists ct, AESGCM_encrypt key nonce data [] = Ok ct.
Hypothesis decrypt_encrypt :
  forall key nonce data aad ct,
    AESGCM_encrypt key nonce data aad = Ok ct ->
    AESGCM_decrypt key nonce ct aad = Ok data.



End Dicts.

(** ** What [json.loads] returns *)

Lemma match_number_json_value (s : pystr) (v : pyvalue) (rest : pystr) :
  match_number s = Some (v, rest) -> json_value v = true.
Proof.
  unfold match_number.
  destruct (number_sign s) as [sign s1].
  destruct (number_integer s1) as [[ds s2]|]; [|discriminate].
  destruct (number_fraction s2) as [frac s3].
  destruct (number_exponent s3) as [exp s4].
  destruct frac, exp; intros H; inversion H; subst; reflexivity.
Qed.

Lemma json_value_snoc (acc : list (pyvalue * pyvalue)) (key : pystr) (v : pyvalue) :
  json_value (PyDict acc) = true -> json_value v = true ->
  json_value (PyDict (dict_setitem key v acc)) = true.
Proof.
  intros Ha Hv. induction acc as [|[k x] acc IH].
  - cbn. now rewrite Hv.
  - cbn [json_value] in Ha. destruct k; try discriminate.
    apply andb_true_iff in Ha as [Hx Ha].
    cbn [dict_setitem]. destruct (decide (s = key)).
    + cbn [json_value]. now rewrite Hv.
    + cbn [json_value]. rewrite Hx. exact (IH Ha).
Qed.

Lemma scan_json_value (fuel : nat) (m : scan_mode) (s : pystr) (v : pyvalue)
    (rest : pystr) :
  scan fuel m s = Parsed v rest ->
  match m with
  | Value => True
  | ArrayItems acc => forallb json_value acc = true
  | ObjectItems acc => json_value (PyDict acc) = true
  end ->
  json_value v = true.
Proof.
  revert m s v rest. induction fuel as [|fuel IH]; intros m s v rest H Hm;
    [discriminate|].
  cbn [scan] in H. destruct m as [|acc|acc].
  - destruct s as [|c r]; [discriminate|].
    destruct (c =? QUOTE).
    { destruct (scanstring r) as [[t rest']|]; [|discriminate].
      now inversion H; subst. }
    destruct (c =? chr "{").
    { destruct (skip_ws r) as [|c1 r1]; [discriminate|].
      destruct (c1 =? chr "}"); [now inversion H; subst|].
      now apply IH in H. }
    destruct (c =? chr "[").
    { destruct (skip_ws r) as [|c1 r1]; [discriminate|].
      destruct (c1 =? chr "]"); [now inversion H; subst|].
      now apply IH in H. }
    destruct (strip_prefix (lit "null") (c :: r)); [now inversion H; subst|].
    destruct (strip_prefix (lit "true") (c :: r)); [now inversion H; subst|].
    destruct (strip_prefix (lit "false") (c :: r)); [now inversion H; subst|].
    destruct (strip_prefix (lit "NaN") (c :: r)); [now inversion H; subst|].
    destruct (strip_prefix (lit "Infinity") (c :: r)); [now inversion H; subst|].
    destruct (strip_prefix (lit "-Infinity") (c :: r)); [now inversion H; subst|].
    destruct (match_number (c :: r)) as [[v' rest']|] eqn:E; [|discriminate].
    apply match_number_json_value in E. now inversion H; subst.
  - destruct (scan fuel Value s) as [v1 r1| |] eqn:E; try discriminate.
    apply IH in E; [|exact I].
    assert (Hacc : forallb json_value (acc ++ [v1]) = true).
    { rewrite forallb_app, Hm. cbn. now rewrite E. }
    destruct (skip_ws r1) as [|c r2]; [discriminate|].
    destruct (c =? chr "]"); [now inversion H; subst|].
    destruct (c =? chr ","); [|discriminate].
    now apply IH in H.
  - destruct s as [|c r]; [discriminate|].
    destruct (c =? QUOTE); [|discriminate].
    destruct (scanstring r) as [[key r1]|]; [|discriminate].
    destruct (skip_ws r1) as [|c2 r2]; [discriminate|].
    destruct (c2 =? chr ":"); [|discriminate].
    destruct (scan fuel Value (skip_ws r2)) as [v1 r3| |] eqn:E3; try discriminate.
    apply IH in E3; [|exact I].
    pose proof (json_value_snoc acc key v1 Hm E3) as Hacc.
    destruct (skip_ws r3) as [|c4 r4]; [discriminate|].
    destruct (c4 =? chr "}"); [now inversion H; subst|].
    destruct (c4 =? chr ","); [|discriminate].
    now apply IH in H.
Qed.

Lemma json_loads_json_value (s : pystr) (v : pyvalue) :
  json_loads s = Ok v -> json_value v = true.
Proof.
  unfold json_loads. destruct (match s with c :: _ => c =? 65279 | [] => false end);
    [discriminate|].
  destruct (scan _ Value (skip_ws s)) as [v' rest| |] eqn:E; try discriminate.
  destruct (skip_ws rest); [|discriminate]. intros [= <-].
  now apply scan_json_value in E.
Qed.

Lemma three_way_kinds (pt : bytes) :
  (three_way pt = PyBytes pt /\ is_ok (bytes_decode pt) = false)
  \/ json_value (three_way pt) = true.
Proof.
  unfold three_way. destruct (bytes_decode pt) as [text|]; [right|left; now split].
  destruct (json_loads text) as [v|] eqn:E; [|reflexivity].
  now apply json_loads_json_value in E.
Qed.

Section Kinds.

Context `{Cryptography}.

(** X4.  What [decrypt_data] or [load_encrypted] returns is either a
    [bytes] object that is not valid UTF-8 or a value [json.loads] can
    return or a [str]: never [bytes] that are UTF-8, and never a dict with a
    key that is not a [str]. *)
Theorem decrypt_data_returns_json_or_raw (self : SecureStorage) (enc : pyvalue)
    (path : pystr) (w w' : World) (v : pyvalue) :
  decrypt_data self enc w = (Ok v, w') \/ load_encrypted self path w = (Ok v, w') ->
  (exists b, v = PyBytes b /\ is_ok (bytes_decode b) = false)
  \/ json_value v = true.
Proof.
  assert (Hd : forall enc0 w0 w1, decrypt_data self enc0 w0 = (Ok v, w1) ->
            (exists b, v = PyBytes b /\ is_ok (bytes_decode b) = false)
            \/ json_value v = true).
  { intros enc0 w0 w1. rewrite decrypt_data_unfold.
    assert (Hh : forall e w2, decrypt_handler e w2 <> (Ok v, w1)).
    { intros e w2. destruct (decrypt_handler_world e w2) as (e' & m & -> & _).
      discriminate. }
    destruct (envelope_fields enc0) as [[[ct salt] nonce]|e];
      [|intros Hx; now apply Hh in Hx].
    destruct (environ w0 !! key_env_var self) as [secret|];
      [|intros Hx; now apply Hh in Hx].
    destruct (str_encode secret) as [mk|e]; [|intros Hx; now apply Hh in Hx].
    cbv zeta. destruct (AESGCM_decrypt _ _ _ _) as [pt|e];
      [|intros Hx; now apply Hh in Hx].
    intros [= <- _]. destruct (three_way_kinds pt) as [[E Hb]|Hj]; [left|now right].
    exists pt. now split. }
  intros [Hx|Hx]; [now apply Hd in Hx|].
  rewrite load_encrypted_unfold in Hx.
  assert (Hh : forall e w2, load_handler e w2 <> (Ok v, w')).
  { intros e w2. destruct (load_handler_world e w2) as (e' & -> & _). discriminate. }
  destruct (files w !! path) as [text|]; [|now apply Hh in Hx].
  destruct (json_loads text) as [enc'|e]; [|now apply Hh in Hx].
  destruct (decrypt_data self enc' w) as [[v'|e] w2] eqn:E; [|now apply Hh in Hx].
  injection Hx as -> ->. now apply Hd in E.
Qed.

(** X16.  Two encryptions in a row use 56 octets of the random source,
    each octet once: the salts are the octets 0-15 and 28-43 from the
    position of the source before the first call, the nonces the octets
    16-27 and 44-55. *)
Theorem successive_encryptions_use_fresh_octets (self : SecureStorage)
    (data data' enc1 enc2 : pyvalue) (w w1 w2 : World) :
  encrypt_data self data w = (Ok enc1, w1) ->
  encrypt_data self data' w1 = (Ok enc2, w2) ->
  (getitem enc1 (lit "salt") ≫= b64decode) = Ok (draw w (cursor w) 16)
  /\ (getitem enc1 (lit "nonce") ≫= b64decode) = Ok (draw w (cursor w + 16) 12)
  /\ (getitem enc2 (lit "salt") ≫= b64decode) = Ok (draw w (cursor w + 28) 16)
  /\ (getitem enc2 (lit "nonce") ≫= b64decode) = Ok (draw w (cursor w + 44) 12)
  /\ cursor w2 = (cursor w + 56)%nat.
Proof.
  intros H1 H2.
  destruct (encrypt_data_inversion self data enc1 w w1 H1)
    as (s1 & mk1 & pt1 & ct1 & Hw1). cbv zeta in Hw1.
  destruct Hw1 as (_ & _ & _ & _ & -> & ->).
  destruct (encrypt_data_inversion self data' enc2 _ w2 H2)
    as (s2 & mk2 & pt2 & ct2 & Hw2). cbv zeta in Hw2.
  destruct Hw2 as (_ & _ & _ & _ & -> & ->).
  pose proof (envelope_fields_envelope ct1 (draw w (cursor w) SALT_LENGTH)
                (draw w (cursor w + SALT_LENGTH) NONCE_LENGTH)) as F1.
  set (wa := after_encrypt (draw w (cursor w) SALT_LENGTH)
               (draw w (cursor w + SALT_LENGTH) NONCE_LENGTH) w) in *.
  assert (Hc : cursor wa = (cursor w + 28)%nat).
  { unfold wa. cbn. unfold SALT_LENGTH, NONCE_LENGTH. lia. }
  assert (He : forall pos n, draw wa pos n = draw w pos n) by reflexivity.
  change (getitem (envelope ?c ?s ?n) (lit "salt")) with (Ok (PyStr (b64text s))).
  change (getitem (envelope ?c ?s ?n) (lit "nonce")) with (Ok (PyStr (b64text n))).
  cbn [mbind result_bind]. rewrite !b64decode_b64text, !He, Hc.
  unfold SALT_LENGTH, NONCE_LENGTH.
  replace (cursor w + 28 + 16)%nat with (cursor w + 44)%nat by lia.
  repeat split. cbn. unfold SALT_LENGTH, NONCE_LENGTH. lia.
Qed.

End Kinds.

(** ** The further properties on concrete inputs *)




(** X4 on the envelope of hello, which is returned as a [str]. *)
Lemma decrypt_data_returns_json_or_raw_witness :
  (exists b, PyStr (lit "hello") = PyBytes b /\ is_ok (bytes_decode b) = false)
  \/ json_value (PyStr (lit "hello")) = true.
Proof.
  apply (@decrypt_data_returns_json_or_raw Toy.crypto example_storage
           (envelope hello_ciphertext example_salt example_nonce) vault
           example_world
           (add_event (EvDecrypt example_nonce)
              (add_event (EvDerive example_salt) example_world))
           (PyStr (lit "hello"))).
  left. vm_compute. reflexivity.
Defined.

(** X5 on [balance], its JSON text and the octets of the text. *)
Lemma envelope_records_no_type_witness :
  @encrypt_data Toy.crypto example_storage balance example_world
    = @encrypt_data Toy.crypto example_storage (PyStr balance_text) example_world
  /\ @encrypt_data Toy.crypto example_storage (PyStr balance_text) example_world
    = @encrypt_data Toy.crypto example_storage (PyBytes balance_plaintext)
        example_world.
Proof.
  apply (@envelope_records_no_type Toy.crypto example_storage example_world
           [(PyStr (lit "balance"), PyFloat (lit "1234.5"))] balance_text
           balance_plaintext).
  - vm_compute. reflexivity.
  - vm_compute. reflexivity.
Defined.


(** X7 on an object whose variable is not set in the world of the example. *)
Lemma unset_variable_fails_every_call_witness :
  is_ok (fst (@encrypt_data Toy.crypto other_storage (PyStr (lit "hello"))
                example_world)) = false
  /\ is_ok (fst (@decrypt_data Toy.crypto other_storage
                   (envelope hello_ciphertext example_salt example_nonce)
                   example_world)) = false
  /\ is_ok (fst (@store_encrypted Toy.crypto other_storage (PyStr (lit "hello"))
                   vault example_world)) = false
  /\ is_ok (fst (@load_encrypted Toy.crypto other_storage vault example_world))
     = false.
Proof.
  apply (@unset_variable_fails_every_call Toy.crypto other_storage
           (PyStr (lit "hello"))
           (envelope hello_ciphertext example_salt example_nonce) vault
           example_world).
  vm_compute. reflexivity.
Defined.

(** X9 on the decryption of the empty dict. *)
Lemma failures_are_NameError_witness :
  exc_cls (Exn NameError (lit "name 'DecryptionError' is not defined")
             (Some (Exn KeyError (str_repr (lit "ciphertext")) None))) = NameError
  /\ isinstance (Exn NameError (lit "name 'DecryptionError' is not defined")
                   (Some (Exn KeyError (str_repr (lit "ciphertext")) None)))
       StorageError = false
  /\ exists cause,
       exc_context (Exn NameError (lit "name 'DecryptionError' is not defined")
                      (Some (Exn KeyError (str_repr (lit "ciphertext")) None)))
       = Some cause.
Proof.
  apply (@failures_are_NameError Toy.crypto example_storage PyNone (PyDict [])
           vault example_world
           (add_event (EvLogError (lit "Decryption failed: 'ciphertext'"))
              example_world)).
  right. left. vm_compute. reflexivity.
Defined.

(** X10 on an envelope whose ciphertext has three characters. *)
Lemma malformed_envelope_fails_early_witness :
  exists e',
    @decrypt_data Toy.crypto example_storage
      (envelope_of (PyStr (lit "AAA")) (PyStr []) (PyStr [])) example_world
    = (Raise e',
       add_event
         (EvLogError
            (lit "Decryption failed: "
             ++ exc_str (binascii_error "Incorrect padding")))
         example_world)
    /\ exc_context e' = Some (binascii_error "Incorrect padding").
Proof.
  apply (@malformed_envelope_fails_early Toy.crypto example_storage
           (envelope_of (PyStr (lit "AAA")) (PyStr []) (PyStr [])) example_world
           (binascii_error "Incorrect padding")).
  vm_compute. reflexivity.
Defined.

(** X11 on an envelope with a fourth entry. *)
Lemma only_three_entries_are_read_witness :
  @decrypt_data Toy.crypto example_storage versioned_envelope example_world
  = @decrypt_data Toy.crypto example_storage
      (envelope hello_ciphertext example_salt example_nonce) example_world.
Proof.
  apply (@only_three_entries_are_read Toy.crypto example_storage
           versioned_envelope
           (envelope hello_ciphertext example_salt example_nonce) example_world);
    vm_compute; reflexivity.
Defined.

(** X12 on a line feed in the middle of a field. *)
Lemma noise_in_a_field_is_skipped_witness :
  @decrypt_data Toy.crypto example_storage
    (envelope_of (PyStr (lit "AAAA" ++ 10 :: lit "BBBB")) PyNone PyNone)
    example_world
  = @decrypt_data Toy.crypto example_storage
      (envelope_of (PyStr (lit "AAAA" ++ lit "BBBB")) PyNone PyNone) example_world.
Proof.
  apply (@noise_in_a_field_is_skipped Toy.crypto example_storage example_world
           (lit "AAAA") (lit "BBBB") 10 PyNone PyNone).
  vm_compute. reflexivity.
Defined.

(** X13 on the salt of the example. *)
Lemma text_after_the_salt_is_ignored_witness :
  @decrypt_data Toy.crypto example_storage
    (envelope_of (PyStr (b64text hello_ciphertext))
       (PyStr (b64text example_salt ++ lit "anything"))
       (PyStr (b64text example_nonce))) example_world
  = @decrypt_data Toy.crypto example_storage
      (envelope_of (PyStr (b64text hello_ciphertext))
         (PyStr (b64text example_salt)) (PyStr (b64text example_nonce)))
      example_world.
Proof.
  apply (@text_after_the_salt_is_ignored Toy.crypto example_storage example_world
           example_salt (lit "anything")); vm_compute; reflexivity.
Defined.

(** X15 on the envelope of hello. *)
Lemma envelope_sizes_witness :
  exists (pt : bytes) (ciphertext salt nonce text : pystr),
    data_to_bytes (PyStr (lit "hello")) = Ok (PyBytes pt)
    /\ envelope hello_ciphertext example_salt example_nonce
       = envelope_of (PyStr ciphertext) (PyStr salt) (PyStr nonce)
    /\ length ciphertext = (4 * ((length pt + 18) / 3))%nat
    /\ length salt = 24%nat
    /\ length nonce = 16%nat
    /\ json_dumps (envelope hello_ciphertext example_salt example_nonce) = Ok text
    /\ length text = (4 * ((length pt + 18) / 3) + 83)%nat
    /\ forallb (fun c => (32 <=? c) && (c <=? 126)) text = true.
Proof.
  apply (@envelope_sizes Toy.crypto toy_encrypt_length example_storage
           (PyStr (lit "hello"))
           (envelope hello_ciphertext example_salt example_nonce) example_world
           (after_encrypt example_salt example_nonce example_world)).
  vm_compute. reflexivity.
Defined.

(** X16 on two encryptions of hello in the world of the example. *)
Lemma successive_encryptions_use_fresh_octets_witness :
  (getitem (envelope hello_ciphertext example_salt example_nonce) (lit "salt")
     ≫= b64decode) = Ok (draw example_world 0 16)
  /\ (getitem (envelope hello_ciphertext example_salt example_nonce) (lit "nonce")
        ≫= b64decode) = Ok (draw example_world 16 12)
  /\ (getitem second_envelope (lit "salt") ≫= b64decode)
     = Ok (draw example_world 28 16)
  /\ (getitem second_envelope (lit "nonce") ≫= b64decode)
     = Ok (draw example_world 44 12)
  /\ cursor (snd second_result) = 56%nat.
Proof.
  apply (@successive_encryptions_use_fresh_octets Toy.crypto example_storage
           (PyStr (lit "hello")) (PyStr (lit "hello"))
           (envelope hello_ciphertext example_salt example_nonce) second_envelope
           example_world second_world (snd second_result));
    vm_compute; reflexivity.
Defined.


(** X8 in the world of the example. *)
Lemma init_accepts_any_nonempty_value_witness :
  is_ok (fst (__init__ DEFAULT_KEY_ENV_VAR example_world)) = true.
Proof.
  apply (proj2 (init_accepts_any_nonempty_value DEFAULT_KEY_ENV_VAR example_world)).
  exists 99, (lit "orrect-horse-battery-staple"). vm_compute. reflexivity.
Defined.
